(** * dyff: report filtering and neat YAML rendering

    A shallow embedding of two Go files of the dyff repository:

    - the report filters of package [dyff] ([Report.filter], [Filter],
      [Exclude], [FilterRegexp], [ExcludeRegexp], [IgnoreValueChanges]);
    - the output processor of package [neat] ([neat], [neatMapSlice],
      [neatSlice], [neatMapSliceSlice], [neatScalar], [prefixAdd]).

    Go panics are explicit ([outcome]), Go [error] results are explicit
    ([result]), and the buffered writer of the output processor is a string
    that every rendering function takes and returns. *)

From Stdlib Require Import String Ascii List Bool Arith ZArith Lia.
From stdpp Require Import base option list strings pretty gmap.
Import ListNotations.

Local Open Scope string_scope.
Local Open Scope list_scope.

(** ** Go prelude *)

(** A Go [error] value, kept as its message. *)
Definition error := string.

(** A Go result pair [(value, err)]: either the value with [err == nil] or
    an error. *)
Inductive result (A : Type) : Type :=
| Ok (a : A)
| Err (e : error).
Arguments Ok {A} a.
Arguments Err {A} e.

(** What makes a Go call unwind instead of returning. *)
Inductive Fault : Type :=
| NilDereference
| RegexpMustCompile (pattern : string).

(** A call either returns or panics. *)
Inductive outcome (A : Type) : Type :=
| Done (a : A)
| Panic (f : Fault).
Arguments Done {A} a.
Arguments Panic {A} f.

Definition obind {A B : Type} (m : outcome A) (k : A -> outcome B) : outcome B :=
  match m with
  | Done a => k a
  | Panic f => Panic f
  end.

Notation "x <~ m ;; k" := (obind m (fun x => k))
  (at level 100, m at next level, right associativity).

(** The line feed, Go's ["\n"]. *)
Definition nl : string := String (ascii_of_nat 10) EmptyString.

(** ** Package dyff: the report and its filters *)

Module Dyff.

(** Modelled from the spec: the [Kind] constants of a [Detail]; their
    declaration is not part of the two source files. *)
Inductive Kind : Type := ADDITION | REMOVAL | MODIFICATION | ORDER_CHANGE.

Definition Kind_eqb (a b : Kind) : bool :=
  match a, b with
  | ADDITION, ADDITION | REMOVAL, REMOVAL
  | MODIFICATION, MODIFICATION | ORDER_CHANGE, ORDER_CHANGE => true
  | _, _ => false
  end.

Section Reports.

(** The collaborators of the filter: [ytbx.Path] with its [String] method,
    [ytbx.ParsePathStringUnsafe], [ytbx.ListPathsInNode], [ytbx.AppendPath],
    [yaml.Node], [ytbx.InputFile] and the [regexp] package. *)
Variable Path : Type.
Variable Node : Type.
Variable InputFile : Type.
Variable Regexp : Type.
Variable PathString : Path -> string.
Variable ParsePathStringUnsafe : string -> result Path.
Variable ListPathsInNode : Node -> result (list Path).
Variable AppendPath : Path -> Path -> Path.
(** [regexp.Compile]; [regexp.MustCompile] panics where it gives no value. *)
Variable Compile : string -> option Regexp.
Variable MatchString : Regexp -> string -> bool.

(** Modelled from the spec: the struct declarations [Detail], [Diff] and
    [Report] are not part of the two source files. Pointers ([*yaml.Node],
    [*ytbx.Path]) are options, [nil] being [None]. *)
Record Detail : Type := mkDetail {
  Kind_ : Kind;
  DFrom : option Node;
  DTo : option Node
}.

Record Diff : Type := mkDiff {
  DPath : option Path;
  Details : list Detail
}.

Record Report : Type := mkReport {
  From_ : InputFile;
  To_ : InputFile;
  Diffs : list Diff
}.

(** *** [Report.filter] *)

(** The innermost loop, [for _, subPath := range subPaths]: [*diff.Path] is
    evaluated at every iteration, before [hasPath] is called. *)
Fixpoint rangeSubPaths (hasPath : option Path -> bool) (diffPath : option Path)
    (subPaths : list Path) (includeDiff : bool) : outcome bool :=
  match subPaths with
  | [] => Done includeDiff
  | subPath :: rest =>
      match diffPath with
      | None => Panic NilDereference
      | Some p =>
          let testPath := AppendPath p subPath in
          rangeSubPaths hasPath diffPath rest
            (if negb (hasPath (Some testPath)) then false else includeDiff)
      end
  end.

(** The body of [for _, diffNode := range []*yaml.Node{From, To}]. *)
Definition checkDiffNode (hasPath : option Path -> bool) (diffPath : option Path)
    (diffNode : option Node) (includeDiff : bool) : outcome bool :=
  match diffNode with
  | None => Done includeDiff
  | Some n =>
      match ListPathsInNode n with
      | Ok subPaths => rangeSubPaths hasPath diffPath subPaths includeDiff
      | Err _ => Done includeDiff
      end
  end.

(** [for _, diffDetail := range diff.Details]. *)
Fixpoint rangeDetails (hasPath : option Path -> bool) (diffPath : option Path)
    (details : list Detail) (includeDiff : bool) : outcome bool :=
  match details with
  | [] => Done includeDiff
  | diffDetail :: rest =>
      inc1 <~ checkDiffNode hasPath diffPath (DFrom diffDetail) includeDiff ;;
      inc2 <~ checkDiffNode hasPath diffPath (DTo diffDetail) inc1 ;;
      rangeDetails hasPath diffPath rest inc2
  end.

(** [for _, diff := range r.Diffs]; [includeDiff] is declared before the
    loop and so is carried from one diff to the next, with [resultDiffs]. *)
Fixpoint rangeDiffs (hasPath : option Path -> bool) (diffs : list Diff)
    (includeDiff : bool) (resultDiffs : list Diff) : outcome (list Diff) :=
  match diffs with
  | [] => Done resultDiffs
  | diff :: rest =>
      let inc0 := if negb (hasPath (DPath diff)) then false else includeDiff in
      inc <~ rangeDetails hasPath (DPath diff) (Details diff) inc0 ;;
      rangeDiffs hasPath rest inc
        (if inc then resultDiffs ++ [diff] else resultDiffs)
  end.

Definition filter (r : Report) (hasPath : option Path -> bool) : outcome Report :=
  diffs <~ rangeDiffs hasPath (Diffs r) true [] ;;
  Done (mkReport (From_ r) (To_ r) diffs).

(** *** The four predicate builders *)

(** The closure passed by [Filter]. *)
Fixpoint filterHasPath (paths : list string) (filterPath : option Path) : bool :=
  match paths with
  | [] => false
  | pathString :: rest =>
      match ParsePathStringUnsafe pathString, filterPath with
      | Ok path, Some fp =>
          if String.eqb (PathString path) (PathString fp) then true
          else filterHasPath rest filterPath
      | _, _ => filterHasPath rest filterPath
      end
  end.

(** The closure passed by [Exclude]. *)
Fixpoint excludeHasPath (paths : list string) (filterPath : option Path) : bool :=
  match paths with
  | [] => true
  | pathString :: rest =>
      match ParsePathStringUnsafe pathString, filterPath with
      | Ok path, Some fp =>
          if String.eqb (PathString path) (PathString fp) then false
          else excludeHasPath rest filterPath
      | _, _ => excludeHasPath rest filterPath
      end
  end.

(** [regexps[i] = regexp.MustCompile(pattern[i])], in order. *)
Fixpoint mustCompileAll (pattern : list string) : outcome (list Regexp) :=
  match pattern with
  | [] => Done []
  | p :: rest =>
      match Compile p with
      | None => Panic (RegexpMustCompile p)
      | Some re => res <~ mustCompileAll rest ;; Done (re :: res)
      end
  end.

(** The closure passed by [FilterRegexp]. *)
Fixpoint filterRegexpHasPath (regexps : list Regexp) (filterPath : option Path) : bool :=
  match regexps with
  | [] => false
  | re :: rest =>
      match filterPath with
      | Some fp =>
          if MatchString re (PathString fp) then true
          else filterRegexpHasPath rest filterPath
      | None => filterRegexpHasPath rest filterPath
      end
  end.

(** The closure passed by [ExcludeRegexp]. *)
Fixpoint excludeRegexpHasPath (regexps : list Regexp) (filterPath : option Path) : bool :=
  match regexps with
  | [] => true
  | re :: rest =>
      match filterPath with
      | Some fp =>
          if MatchString re (PathString fp) then false
          else excludeRegexpHasPath rest filterPath
      | None => excludeRegexpHasPath rest filterPath
      end
  end.

(** *** The exported filters *)

Definition Filter (r : Report) (paths : list string) : outcome Report :=
  if Nat.eqb (length paths) 0 then Done r
  else filter r (filterHasPath paths).

Definition Exclude (r : Report) (paths : list string) : outcome Report :=
  if Nat.eqb (length paths) 0 then Done r
  else filter r (excludeHasPath paths).

Definition FilterRegexp (r : Report) (pattern : list string) : outcome Report :=
  if Nat.eqb (length pattern) 0 then Done r
  else
    regexps <~ mustCompileAll pattern ;;
    filter r (filterRegexpHasPath regexps).

Definition ExcludeRegexp (r : Report) (pattern : list string) : outcome Report :=
  if Nat.eqb (length pattern) 0 then Done r
  else
    regexps <~ mustCompileAll pattern ;;
    filter r (excludeRegexpHasPath regexps).

(** *** [IgnoreValueChanges] *)

(** The inner loop with its [break]. *)
Fixpoint hasValChange (details : list Detail) : bool :=
  match details with
  | [] => false
  | detail :: rest =>
      if Kind_eqb (Kind_ detail) MODIFICATION then true else hasValChange rest
  end.

Fixpoint rangeIgnore (diffs : list Diff) (resultDiffs : list Diff) : list Diff :=
  match diffs with
  | [] => resultDiffs
  | diff :: rest =>
      rangeIgnore rest
        (if negb (hasValChange (Details diff)) then resultDiffs ++ [diff]
         else resultDiffs)
  end.

Definition IgnoreValueChanges (r : Report) : Report :=
  mkReport (From_ r) (To_ r) (rangeIgnore (Diffs r) []).

(** *** Vocabulary of the claims

    What the statements about the filters speak of, next to the code and
    not used by it. *)

(** The sub-paths the filter enumerates for one node pointer. *)
Definition nodeSubPaths (diffNode : option Node) : list Path :=
  match diffNode with
  | Some n =>
      match ListPathsInNode n with
      | Ok subPaths => subPaths
      | Err _ => []
      end
  | None => []
  end.

Definition detailSubPaths (diffDetail : Detail) : list Path :=
  nodeSubPaths (DFrom diffDetail) ++ nodeSubPaths (DTo diffDetail).

(** Every sub-path found in the From and To values of a diff's details. *)
Definition diffSubPaths (diff : Diff) : list Path :=
  flat_map detailSubPaths (Details diff).

(** The diff's own checks: the predicate on its path and on each of its
    sub-paths appended to its path. *)
Definition ownChecks (hasPath : option Path -> bool) (diff : Diff) : bool :=
  hasPath (DPath diff) &&
  match DPath diff with
  | Some p => forallb (fun subPath => hasPath (Some (AppendPath p subPath))) (diffSubPaths diff)
  | None => true
  end.

(** A diff without a path whose values hold a sub-path. *)
Definition pathless (diff : Diff) : bool :=
  match DPath diff, diffSubPaths diff with
  | None, _ :: _ => true
  | _, _ => false
  end.

(** The longest run of leading elements that satisfy [f]. *)
Fixpoint leading {A : Type} (f : A -> bool) (l : list A) : list A :=
  match l with
  | [] => []
  | x :: rest => if f x then x :: leading f rest else []
  end.

(** No detail of the diff is a MODIFICATION. *)
Definition noModification (diff : Diff) : bool :=
  forallb (fun detail => negb (Kind_eqb (Kind_ detail) MODIFICATION)) (Details diff).

(** [whole] is [left] and [right] merged, each kept in its order. *)
Inductive Interleave {A : Type} : list A -> list A -> list A -> Prop :=
| Interleave_nil : Interleave [] [] []
| Interleave_left x left right whole :
    Interleave left right whole -> Interleave (x :: left) right (x :: whole)
| Interleave_right x left right whole :
    Interleave left right whole -> Interleave left (x :: right) (x :: whole).

(** Two results that share no diff and together rebuild [whole] in order. *)
Definition Complementary (whole left right : list Diff) : Prop :=
  (forall d, In d left -> In d right -> False) /\ Interleave left right whole.

End Reports.

End Dyff.

Arguments Dyff.mkDetail {Node} _ _ _.
Arguments Dyff.Kind_ {Node} _.
Arguments Dyff.DFrom {Node} _.
Arguments Dyff.DTo {Node} _.
Arguments Dyff.mkDiff {Path Node} _ _.
Arguments Dyff.DPath {Path Node} _.
Arguments Dyff.Details {Path Node} _.
Arguments Dyff.mkReport {Path Node InputFile} _ _ _.
Arguments Dyff.From_ {Path Node InputFile} _.
Arguments Dyff.To_ {Path Node InputFile} _.
Arguments Dyff.Diffs {Path Node InputFile} _.
Arguments Dyff.rangeSubPaths {Path} AppendPath hasPath diffPath subPaths includeDiff.
Arguments Dyff.checkDiffNode {Path Node} ListPathsInNode AppendPath hasPath diffPath diffNode includeDiff.
Arguments Dyff.rangeDetails {Path Node} ListPathsInNode AppendPath hasPath diffPath details includeDiff.
Arguments Dyff.rangeDiffs {Path Node} ListPathsInNode AppendPath hasPath diffs includeDiff resultDiffs.
Arguments Dyff.filter {Path Node InputFile} ListPathsInNode AppendPath r hasPath.
Arguments Dyff.filterHasPath {Path} PathString ParsePathStringUnsafe paths filterPath.
Arguments Dyff.excludeHasPath {Path} PathString ParsePathStringUnsafe paths filterPath.
Arguments Dyff.mustCompileAll {Regexp} Compile pattern.
Arguments Dyff.filterRegexpHasPath {Path Regexp} PathString MatchString regexps filterPath.
Arguments Dyff.excludeRegexpHasPath {Path Regexp} PathString MatchString regexps filterPath.
Arguments Dyff.Filter {Path Node InputFile} PathString ParsePathStringUnsafe ListPathsInNode AppendPath r paths.
Arguments Dyff.Exclude {Path Node InputFile} PathString ParsePathStringUnsafe ListPathsInNode AppendPath r paths.
Arguments Dyff.FilterRegexp {Path Node InputFile Regexp} PathString ListPathsInNode AppendPath Compile MatchString r pattern.
Arguments Dyff.ExcludeRegexp {Path Node InputFile Regexp} PathString ListPathsInNode AppendPath Compile MatchString r pattern.
Arguments Dyff.hasValChange {Node} details.
Arguments Dyff.rangeIgnore {Path Node} diffs resultDiffs.
Arguments Dyff.IgnoreValueChanges {Path Node InputFile} r.
Arguments Dyff.nodeSubPaths {Path Node} ListPathsInNode diffNode.
Arguments Dyff.detailSubPaths {Path Node} ListPathsInNode diffDetail.
Arguments Dyff.diffSubPaths {Path Node} ListPathsInNode diff.
Arguments Dyff.ownChecks {Path Node} ListPathsInNode AppendPath hasPath diff.
Arguments Dyff.pathless {Path Node} ListPathsInNode diff.
Arguments Dyff.noModification {Path Node} diff.
Arguments Dyff.Complementary {Path Node} whole left right.

(** ** Package neat: the output processor *)

Module Neat.

(** What [neat] can be handed as [interface{}]. The type switches of the
    source tell [yaml.MapSlice], [[]interface{}] and [[]yaml.MapSlice]
    apart from every other dynamic type; [neatScalar] tells [nil], [bool],
    the float kinds and the integer kinds apart from the rest. *)
Inductive Value : Type :=
| VMapSlice (m : MapSlice)
| VSlice (l : Slice)
| VMapSliceSlice (l : MapSliceSlice)
| VNil
| VBool (b : bool)
| VFloat (bits : Z)
| VInt (n : Z)
| VString (s : string)
| VOther (repr : string)
with MapSlice : Type :=
| MapNil
| MapItem (Key Value_ : Value) (rest : MapSlice)
with Slice : Type :=
| SliceNil
| SliceCons (entry : Value) (rest : Slice)
with MapSliceSlice : Type :=
| MapSlicesNil
| MapSlicesCons (entry : MapSlice) (rest : MapSliceSlice).

(** Induction over a value and the mappings and sequences inside it. *)
Scheme Value_mut := Induction for Value Sort Prop
  with MapSlice_mut := Induction for MapSlice Sort Prop
  with Slice_mut := Induction for Slice Sort Prop
  with MapSliceSlice_mut := Induction for MapSliceSlice Sort Prop.
Combined Scheme Value_mutind
  from Value_mut, MapSlice_mut, Slice_mut, MapSliceSlice_mut.

(** [[]interface{}{...}] and [[]yaml.MapSlice{...}] from lists. *)
Definition slice (l : list Value) : Slice := foldr SliceCons SliceNil l.
Definition mapSlice (l : list (Value * Value)) : MapSlice :=
  foldr (fun kv rest => MapItem (fst kv) (snd kv) rest) MapNil l.
Definition mapSlices (l : list MapSlice) : MapSliceSlice :=
  foldr MapSlicesCons MapSlicesNil l.

(** [strings.Split(s, "\n")]. *)
Fixpoint Split (s : string) : list string :=
  match s with
  | EmptyString => [EmptyString]
  | String c rest =>
      if Ascii.eqb c (ascii_of_nat 10) then EmptyString :: Split rest
      else
        match Split rest with
        | line :: lines => String c line :: lines
        | [] => [String c EmptyString]
        end
  end.

(** The sink [p.out]: the text written so far. *)
Definition Buffer := string.

Definition WriteString (out : Buffer) (s : string) : Buffer := out +:+ s.

(** A rendering step leaves the buffer and returns Go's [error] ([None] is
    [nil]). *)
Definition Step := (Buffer * option error)%type.

(** [if err := ...; err != nil { return err }] and on with the rest. *)
Definition orReturn (r : Step) (k : Buffer -> Step) : Step :=
  match r with
  | (out, None) => k out
  | (out, Some err) => (out, Some err)
  end.

Notation "out <?- r ;; k" := (orReturn r (fun out => k))
  (at level 100, r at next level, right associativity).

Section Processor.

(** The collaborators: [bunt.Color], [bunt.Colorize], [bunt.Style] with
    [bunt.Bold], [yaml.Marshal], [fmt.Sprintf] with the verb [%v] and
    [strings.TrimSpace]. *)
Variable Color : Type.
Variable Colorize : string -> Color -> string.
Variable Bold : string -> string.
Variable Marshal : Value -> result string.
Variable FormatV : Value -> string.
Variable TrimSpace : string -> string.

(** The preferences of an [OutputProcessor]; its buffer is threaded through
    the functions below. *)
Record OutputProcessor : Type := mkOutputProcessor {
  colorSchema : option (gmap string Color);
  useIndentLines : bool;
  boldKeys : bool
}.

Variable p : OutputProcessor.

Definition colorize (text : string) (colorName : string) : string :=
  match colorSchema p with
  | Some schema =>
      match schema !! colorName with
      | Some value => Colorize text value
      | None => text
      end
  | None => text
  end.

Definition prefixAdd : string :=
  if useIndentLines p then colorize "│ " "indentLineColor"
  else colorize "  " "indentLineColor".

(** [for i, line := range lines] of [neatScalar]. *)
Fixpoint rangeLines (prefix color : string) (i : nat) (lines : list string)
    (out : Buffer) : Buffer :=
  match lines with
  | [] => out
  | line :: rest =>
      let out := if Nat.ltb 0 i then WriteString out prefix else out in
      let out := WriteString out (colorize line color) in
      let out := WriteString out nl in
      rangeLines prefix color (S i) rest out
  end.

Definition neatScalar (prefix : string) (skipIndentOnFirstLine : bool)
    (obj : Value) (out : Buffer) : Step :=
  match obj with
  | VNil =>
      let out := WriteString out (colorize "null" "nullColor") in
      let out := WriteString out nl in
      (out, None)
  | _ =>
      match Marshal obj with
      | Err err => (out, Some err)
      | Ok data =>
          let color :=
            match obj with
            | VBool _ => "boolColor"
            | VFloat _ => "floatColor"
            | VInt _ => "intColor"
            | _ => "scalarDefaultColor"
            end in
          let lines := Split (TrimSpace data) in
          let color := if Nat.ltb 1 (length lines) then "multiLineTextColor" else color in
          (rangeLines prefix color 0 lines out, None)
      end
  end.

(** The four mutually recursive renderers. [neatMapSliceFrom i] is the loop
    of [neatMapSlice] from its [i]-th item on. [neatMapSliceSlice] calls
    [neat] on an entry of static type [yaml.MapSlice], which is the first
    case of [neat]'s switch: the call is written here as the call of
    [neatMapSlice] that case makes. *)
Fixpoint neat (prefix : string) (skipIndentOnFirstLine : bool) (obj : Value)
    (out : Buffer) {struct obj} : Step :=
  match obj with
  | VMapSlice m => neatMapSliceFrom 0 prefix skipIndentOnFirstLine m out
  | VSlice l => neatSlice prefix skipIndentOnFirstLine l out
  | VMapSliceSlice l => neatMapSliceSlice prefix skipIndentOnFirstLine l out
  | _ => neatScalar prefix skipIndentOnFirstLine obj out
  end
with neatMapSliceFrom (i : nat) (prefix : string) (skipIndentOnFirstLine : bool)
    (mapslice : MapSlice) (out : Buffer) {struct mapslice} : Step :=
  match mapslice with
  | MapNil => (out, None)
  | MapItem key value rest =>
      let out :=
        if negb skipIndentOnFirstLine || Nat.ltb 0 i then WriteString out prefix
        else out in
      let keyString := FormatV key +:+ ":" in
      let keyString := if boldKeys p then Bold keyString else keyString in
      let out := WriteString out (colorize keyString "keyColor") in
      out <?-
        match value with
        | VMapSlice m =>
            match m with
            | MapNil =>
                let out := WriteString out " " in
                let out := WriteString out (colorize "{}" "emptyStructures") in
                let out := WriteString out nl in
                (out, None)
            | MapItem _ _ _ =>
                let out := WriteString out nl in
                neatMapSliceFrom 0 (prefix +:+ prefixAdd) false m out
            end
        | VSlice l =>
            match l with
            | SliceNil =>
                let out := WriteString out " " in
                let out := WriteString out (colorize "[]" "emptyStructures") in
                let out := WriteString out nl in
                (out, None)
            | SliceCons _ _ =>
                let out := WriteString out nl in
                neatSlice prefix false l out
            end
        | _ =>
            let out := WriteString out " " in
            neatScalar prefix false value out
        end ;;
      neatMapSliceFrom (S i) prefix skipIndentOnFirstLine rest out
  end
with neatSlice (prefix : string) (skipIndentOnFirstLine : bool) (list : Slice)
    (out : Buffer) {struct list} : Step :=
  match list with
  | SliceNil => (out, None)
  | SliceCons entry rest =>
      let out := WriteString out prefix in
      let out := WriteString out (Bold "- ") in
      out <?- neat (prefix +:+ prefixAdd) true entry out ;;
      neatSlice prefix skipIndentOnFirstLine rest out
  end
with neatMapSliceSlice (prefix : string) (skipIndentOnFirstLine : bool)
    (list : MapSliceSlice) (out : Buffer) {struct list} : Step :=
  match list with
  | MapSlicesNil => (out, None)
  | MapSlicesCons entry rest =>
      let out := WriteString out prefix in
      let out := WriteString out (Bold "- ") in
      out <?- neatMapSliceFrom 0 (prefix +:+ prefixAdd) true entry out ;;
      neatMapSliceSlice prefix skipIndentOnFirstLine rest out
  end.

Definition neatMapSlice (prefix : string) (skipIndentOnFirstLine : bool)
    (mapslice : MapSlice) (out : Buffer) : Step :=
  neatMapSliceFrom 0 prefix skipIndentOnFirstLine mapslice out.

(** [ToString] on a processor whose buffer is still empty, as
    [NewOutputProcessor] returns it. *)
Definition ToString (obj : Value) : string * option error :=
  match neat "" false obj "" with
  | (_, Some err) => ("", Some err)
  | (data, None) => (data, None)
  end.

(** *** Vocabulary of the claims *)

(** The text [neatMapSlice] writes for a key: [%v:] of the key, bold when
    the processor has bold keys, in the key color. *)
Definition keyText (key : Value) : string :=
  colorize
    (if boldKeys p then Bold (FormatV key +:+ ":") else FormatV key +:+ ":")
    "keyColor".

(** Lines set one after the other, each behind the prefix, each in the
    given color, each closed by a line feed. *)
Definition laterLines (prefix color : string) (lines : list string) : string :=
  foldr (fun line text => prefix +:+ colorize line color +:+ nl +:+ text) "" lines.

End Processor.

(** The [[]interface{}] that holds the mappings of a [[]yaml.MapSlice]. *)
Fixpoint asSlice (l : MapSliceSlice) : Slice :=
  match l with
  | MapSlicesNil => SliceNil
  | MapSlicesCons entry rest => SliceCons (VMapSlice entry) (asSlice rest)
  end.

(** A rendering step that only writes behind what the buffer holds: the
    text it adds and the error it returns are those of a run on the empty
    buffer. *)
Definition Appends (f : Buffer -> Step) : Prop :=
  forall out, f out = (out +:+ fst (f ""), snd (f "")).

(** Lines set one after the other, each behind the prefix, each decorated
    by [decorate], each closed by a line feed. *)
Definition prefixedLines (prefix : string) (decorate : string -> string)
    (lines : list string) : string :=
  foldr (fun line text => prefix +:+ decorate line +:+ nl +:+ text) "" lines.

(** [strings.Join(lines, "\n")]. *)
Fixpoint Join (lines : list string) : string :=
  match lines with
  | [] => ""
  | [line] => line
  | line :: rest => line +:+ nl +:+ Join rest
  end.

End Neat.

Arguments Neat.mkOutputProcessor {Color} _ _ _.
Arguments Neat.colorSchema {Color} _.
Arguments Neat.useIndentLines {Color} _.
Arguments Neat.boldKeys {Color} _.
Arguments Neat.colorize {Color} Colorize p text colorName.
Arguments Neat.prefixAdd {Color} Colorize p.
Arguments Neat.rangeLines {Color} Colorize p prefix color i lines out.
Arguments Neat.neatScalar {Color} Colorize Marshal TrimSpace p prefix skipIndentOnFirstLine obj out.
Arguments Neat.neat {Color} Colorize Bold Marshal FormatV TrimSpace p prefix skipIndentOnFirstLine obj out.
Arguments Neat.neatMapSliceFrom {Color} Colorize Bold Marshal FormatV TrimSpace p i prefix skipIndentOnFirstLine mapslice out.
Arguments Neat.neatSlice {Color} Colorize Bold Marshal FormatV TrimSpace p prefix skipIndentOnFirstLine list out.
Arguments Neat.neatMapSliceSlice {Color} Colorize Bold Marshal FormatV TrimSpace p prefix skipIndentOnFirstLine list out.
Arguments Neat.neatMapSlice {Color} Colorize Bold Marshal FormatV TrimSpace p prefix skipIndentOnFirstLine mapslice out.
Arguments Neat.ToString {Color} Colorize Bold Marshal FormatV TrimSpace p obj.
Arguments Neat.keyText {Color} Colorize Bold FormatV p key.
Arguments Neat.laterLines {Color} Colorize p prefix color lines.

(** ** Stand-ins for the collaborators

    Small executable instances of what the two packages import, used to run
    the embedding on concrete reports and values. The general theorems hold
    for every instance; these only supply inputs. *)

Module Sample.

(** A path is the list of its element names; its string form is the
    go-patch style [/a/b], the root being [/]. *)
Definition Path := list string.

Definition PathString (p : Path) : string :=
  match p with
  | [] => "/"
  | _ => String.concat "" (map (fun e => "/" +:+ e) p)
  end.

(** [s] cut at every [sep]. *)
Fixpoint cut (sep : ascii) (s : string) : list string :=
  match s with
  | EmptyString => [EmptyString]
  | String c rest =>
      if Ascii.eqb c sep then EmptyString :: cut sep rest
      else
        match cut sep rest with
        | piece :: pieces => String c piece :: pieces
        | [] => [String c EmptyString]
        end
  end.

(** The parser reads go-patch style strings only: a string that does not
    start with a slash is malformed. *)
Definition ParsePathStringUnsafe (s : string) : result Path :=
  match s with
  | String c rest =>
      if Ascii.eqb c "/"%char then
        Ok (match rest with EmptyString => [] | _ => cut "/"%char rest end)
      else Err ("invalid path string " +:+ s)
  | EmptyString => Err "invalid path string"
  end.

(** A YAML node: a scalar or a mapping with its entries in order. *)
Inductive Node : Type :=
| Scalar (value : string)
| Mapping (content : Content)
with Content : Type :=
| NoContent
| Entry (key : string) (value : Node) (rest : Content).

(** Every path below a node, parents before children. *)
Fixpoint pathsIn (n : Node) : list Path :=
  match n with
  | Scalar _ => []
  | Mapping content => pathsInContent content
  end
with pathsInContent (c : Content) : list Path :=
  match c with
  | NoContent => []
  | Entry k v rest => ([k] :: map (cons k) (pathsIn v)) ++ pathsInContent rest
  end.

Definition ListPathsInNode (n : Node) : result (list Path) := Ok (pathsIn n).

Definition AppendPath (p q : Path) : Path := p ++ q.

Definition InputFile := string.

(** The regular expressions are literal texts that match wherever they
    occur; a pattern with an opening parenthesis does not compile. *)
Definition Regexp := string.

Fixpoint hasParen (s : string) : bool :=
  match s with
  | EmptyString => false
  | String c rest => Ascii.eqb c "("%char || hasParen rest
  end.

Definition Compile (pattern : string) : option Regexp :=
  if hasParen pattern then None else Some pattern.

Definition MatchString (re : Regexp) (s : string) : bool :=
  match String.index 0 re s with
  | Some _ => true
  | None => false
  end.

Abbreviation Detail := (Dyff.Detail Node).
Abbreviation Diff := (Dyff.Diff Path Node).
Abbreviation Report := (Dyff.Report Path Node InputFile).

Definition filter : Report -> (option Path -> bool) -> outcome Report :=
  Dyff.filter ListPathsInNode AppendPath.
Definition Filter : Report -> list string -> outcome Report :=
  Dyff.Filter PathString ParsePathStringUnsafe ListPathsInNode AppendPath.
Definition Exclude : Report -> list string -> outcome Report :=
  Dyff.Exclude PathString ParsePathStringUnsafe ListPathsInNode AppendPath.
Definition FilterRegexp : Report -> list string -> outcome Report :=
  Dyff.FilterRegexp PathString ListPathsInNode AppendPath Compile MatchString.
Definition ExcludeRegexp : Report -> list string -> outcome Report :=
  Dyff.ExcludeRegexp PathString ListPathsInNode AppendPath Compile MatchString.

(** Text decoration that stays readable: a color is its name, written in
    brackets before the text; bold text is set between stars. *)
Definition Color := string.
Definition Colorize (text : string) (c : Color) : string := "[" +:+ c +:+ "]" +:+ text.
Definition Bold (text : string) : string := "*" +:+ text +:+ "*".

Definition isSpace (c : ascii) : bool :=
  let n := nat_of_ascii c in
  Nat.eqb n 32 || (Nat.leb 9 n && Nat.leb n 13).

Fixpoint trimLeft (s : string) : string :=
  match s with
  | String c rest => if isSpace c then trimLeft rest else s
  | EmptyString => EmptyString
  end.

Fixpoint trimRight (s : string) : string :=
  match s with
  | String c rest =>
      match trimRight rest with
      | EmptyString => if isSpace c then EmptyString else String c EmptyString
      | kept => String c kept
      end
  | EmptyString => EmptyString
  end.

Definition TrimSpace (s : string) : string := trimRight (trimLeft s).

(** The YAML text of the values used below: plain scalars, a string with a
    line feed in literal block style, a mapping of scalars and a sequence of
    such mappings. *)
Definition scalarText (v : Neat.Value) : option string :=
  match v with
  | Neat.VNil => Some "null"
  | Neat.VBool b => Some (if b then "true" else "false")
  | Neat.VInt n => Some (pretty n)
  | Neat.VString s =>
      match Neat.Split s with
      | [_] => Some s
      | lines => Some ("|-" +:+ String.concat "" (map (fun l => nl +:+ "  " +:+ l) lines))
      end
  | _ => None
  end.

Fixpoint mappingLines (m : Neat.MapSlice) : option (list string) :=
  match m with
  | Neat.MapNil => Some []
  | Neat.MapItem k v rest =>
      match scalarText k, scalarText v, mappingLines rest with
      | Some kt, Some vt, Some ls => Some ((kt +:+ ": " +:+ vt) :: ls)
      | _, _, _ => None
      end
  end.

Definition itemLines (ls : list string) : list string :=
  match ls with
  | [] => ["- {}"]
  | l :: rest => ("- " +:+ l) :: map (fun x => "  " +:+ x) rest
  end.

Fixpoint sequenceLines (l : Neat.MapSliceSlice) : option (list string) :=
  match l with
  | Neat.MapSlicesNil => Some []
  | Neat.MapSlicesCons m rest =>
      match mappingLines m, sequenceLines rest with
      | Some ls, Some more => Some (itemLines ls ++ more)
      | _, _ => None
      end
  end.

Definition unlines (ls : list string) : string :=
  String.concat "" (map (fun l => l +:+ nl) ls).

Definition Marshal (v : Neat.Value) : result string :=
  match v with
  | Neat.VMapSlice m =>
      match mappingLines m with
      | Some [] => Ok ("{}" +:+ nl)
      | Some ls => Ok (unlines ls)
      | None => Err "cannot marshal"
      end
  | Neat.VMapSliceSlice l =>
      match sequenceLines l with
      | Some [] => Ok ("[]" +:+ nl)
      | Some ls => Ok (unlines ls)
      | None => Err "cannot marshal"
      end
  | _ =>
      match scalarText v with
      | Some t => Ok (t +:+ nl)
      | None => Err "cannot marshal"
      end
  end.

Definition FormatV (v : Neat.Value) : string :=
  match scalarText v with
  | Some t => t
  | None => "?"
  end.

(** A processor without colors and one with a two-color schema. *)
Definition plain : Neat.OutputProcessor Color :=
  Neat.mkOutputProcessor None false false.

Definition twoColors : Neat.OutputProcessor Color :=
  Neat.mkOutputProcessor
    (Some (<["multiLineTextColor" := "aquamarine"]>
             (<["keyColor" := "red"]> (∅ : gmap string Color))))
    true false.

(** A processor whose schema names the four colors of one-line scalars. *)
Definition typeColors : Neat.OutputProcessor Color :=
  Neat.mkOutputProcessor
    (Some (<["boolColor" := "moccasin"]>
             (<["floatColor" := "orange"]>
                (<["intColor" := "purple"]>
                   (<["scalarDefaultColor" := "green"]> (∅ : gmap string Color))))))
    true false.

Definition neatScalar :=
  Neat.neatScalar Colorize Marshal TrimSpace.
Definition neatMapSlice :=
  Neat.neatMapSlice Colorize Bold Marshal FormatV TrimSpace.
Definition neatSlice :=
  Neat.neatSlice Colorize Bold Marshal FormatV TrimSpace.
Definition neatMapSliceSlice :=
  Neat.neatMapSliceSlice Colorize Bold Marshal FormatV TrimSpace.
Definition ToString :=
  Neat.ToString Colorize Bold Marshal FormatV TrimSpace.

(** Reports to run the filters on. *)
Definition keyC : Node := Mapping (Entry "c" (Scalar "1") NoContent).

Definition diffA : Diff := Dyff.mkDiff (Some ["a"]) [].
Definition diffB : Diff := Dyff.mkDiff (Some ["b"]) [].
Definition diffNested : Diff :=
  Dyff.mkDiff (Some ["a"]) [Dyff.mkDetail Dyff.ADDITION None (Some keyC)].
Definition diffNoPath : Diff :=
  Dyff.mkDiff None [Dyff.mkDetail Dyff.REMOVAL (Some keyC) None].

Definition report (diffs : list Diff) : Report :=
  Dyff.mkReport "from.yml" "to.yml" diffs.

End Sample.


(** * Properties of the report filters *)

Section FilterFacts.

Context {Path Node InputFile Regexp : Type}.
Variable PathString : Path -> string.
Variable ParsePathStringUnsafe : string -> result Path.
Variable ListPathsInNode : Node -> result (list Path).
Variable AppendPath : Path -> Path -> Path.
Variable Compile : string -> option Regexp.
Variable MatchString : Regexp -> string -> bool.

Abbreviation Diff := (Dyff.Diff Path Node).
Abbreviation Report := (Dyff.Report Path Node InputFile).
Abbreviation filter := (Dyff.filter (InputFile:=InputFile) ListPathsInNode AppendPath).
Abbreviation rangeDiffs := (Dyff.rangeDiffs ListPathsInNode AppendPath).
Abbreviation rangeDetails := (Dyff.rangeDetails ListPathsInNode AppendPath).
Abbreviation checkDiffNode := (Dyff.checkDiffNode ListPathsInNode AppendPath).
Abbreviation rangeSubPaths := (Dyff.rangeSubPaths AppendPath).
Abbreviation filterHasPath := (Dyff.filterHasPath PathString ParsePathStringUnsafe).
Abbreviation excludeHasPath := (Dyff.excludeHasPath PathString ParsePathStringUnsafe).
Abbreviation filterRegexpHasPath := (Dyff.filterRegexpHasPath PathString MatchString).
Abbreviation excludeRegexpHasPath := (Dyff.excludeRegexpHasPath PathString MatchString).
Abbreviation mustCompileAll := (Dyff.mustCompileAll Compile).
Abbreviation Filter :=
  (Dyff.Filter (InputFile:=InputFile) PathString ParsePathStringUnsafe ListPathsInNode AppendPath).
Abbreviation Exclude :=
  (Dyff.Exclude (InputFile:=InputFile) PathString ParsePathStringUnsafe ListPathsInNode AppendPath).
Abbreviation FilterRegexp :=
  (Dyff.FilterRegexp (InputFile:=InputFile) PathString ListPathsInNode AppendPath Compile MatchString).
Abbreviation ExcludeRegexp :=
  (Dyff.ExcludeRegexp (InputFile:=InputFile) PathString ListPathsInNode AppendPath Compile MatchString).
Abbreviation nodeSubPaths := (Dyff.nodeSubPaths ListPathsInNode).
Abbreviation detailSubPaths := (Dyff.detailSubPaths ListPathsInNode).
Abbreviation diffSubPaths := (Dyff.diffSubPaths ListPathsInNode).
Abbreviation ownChecks := (Dyff.ownChecks ListPathsInNode AppendPath).
Abbreviation pathless := (Dyff.pathless ListPathsInNode).

Implicit Types (hasPath : option Path -> bool) (r : Report) (diff d : Diff).

(** ** The loops of [filter] in closed form *)

Lemma rangeSubPaths_Some hasPath p subPaths includeDiff :
  rangeSubPaths hasPath (Some p) subPaths includeDiff =
  Done (includeDiff &&
        forallb (fun subPath => hasPath (Some (AppendPath p subPath))) subPaths).
Proof.
  revert includeDiff.
  induction subPaths as [|subPath rest IH]; intros includeDiff; simpl.
  - now rewrite andb_true_r.
  - rewrite IH. destruct (hasPath (Some (AppendPath p subPath))); simpl.
    + reflexivity.
    + now rewrite andb_false_r.
Qed.

Lemma rangeSubPaths_None hasPath subPaths includeDiff :
  rangeSubPaths hasPath None subPaths includeDiff =
  match subPaths with
  | [] => Done includeDiff
  | _ :: _ => Panic NilDereference
  end.
Proof. destruct subPaths; reflexivity. Qed.

Lemma checkDiffNode_eq hasPath diffPath diffNode includeDiff :
  checkDiffNode hasPath diffPath diffNode includeDiff =
  rangeSubPaths hasPath diffPath (nodeSubPaths diffNode) includeDiff.
Proof.
  unfold Dyff.checkDiffNode, Dyff.nodeSubPaths.
  destruct diffNode as [n|]; [|reflexivity].
  destruct (ListPathsInNode n); reflexivity.
Qed.

Lemma rangeSubPaths_app hasPath diffPath l1 l2 includeDiff :
  rangeSubPaths hasPath diffPath (l1 ++ l2) includeDiff =
  (inc <~ rangeSubPaths hasPath diffPath l1 includeDiff ;;
   rangeSubPaths hasPath diffPath l2 inc).
Proof.
  revert includeDiff. induction l1 as [|x l1 IH]; intros includeDiff; simpl.
  - reflexivity.
  - destruct diffPath; [apply IH | reflexivity].
Qed.

Lemma rangeDetails_eq hasPath diffPath details includeDiff :
  rangeDetails hasPath diffPath details includeDiff =
  rangeSubPaths hasPath diffPath (flat_map detailSubPaths details) includeDiff.
Proof.
  revert includeDiff.
  induction details as [|det rest IH]; intros includeDiff; simpl.
  - reflexivity.
  - unfold Dyff.detailSubPaths. rewrite !rangeSubPaths_app, checkDiffNode_eq.
    destruct (rangeSubPaths hasPath diffPath (nodeSubPaths (Dyff.DFrom det)) includeDiff)
      as [inc1|]; simpl; [|reflexivity].
    rewrite checkDiffNode_eq.
    destruct (rangeSubPaths hasPath diffPath (nodeSubPaths (Dyff.DTo det)) inc1)
      as [inc2|]; simpl; [|reflexivity].
    apply IH.
Qed.

(** One diff of the loop that does not fault: the carried flag is and-ed
    with the diff's own checks. *)
Lemma rangeDetails_sound hasPath diff includeDiff :
  pathless diff = false ->
  rangeDetails hasPath (Dyff.DPath diff) (Dyff.Details diff)
    (if negb (hasPath (Dyff.DPath diff)) then false else includeDiff) =
  Done (includeDiff && ownChecks hasPath diff).
Proof.
  intros Hp. rewrite rangeDetails_eq.
  unfold Dyff.ownChecks, Dyff.pathless, Dyff.diffSubPaths in *.
  destruct (Dyff.DPath diff) as [p|].
  - rewrite rangeSubPaths_Some.
    destruct (hasPath (Some p)); simpl; [reflexivity|].
    now rewrite andb_false_r.
  - destruct (flat_map detailSubPaths (Dyff.Details diff)); [|discriminate].
    simpl. destruct (hasPath None); simpl; [now rewrite andb_true_r|].
    now rewrite andb_false_r.
Qed.

Lemma rangeDetails_pathless hasPath diff includeDiff :
  pathless diff = true ->
  rangeDetails hasPath (Dyff.DPath diff) (Dyff.Details diff) includeDiff =
  Panic NilDereference.
Proof.
  intros Hp. rewrite rangeDetails_eq.
  unfold Dyff.pathless, Dyff.diffSubPaths in *.
  destruct (Dyff.DPath diff); [discriminate|].
  destruct (flat_map detailSubPaths (Dyff.Details diff)); [discriminate|].
  reflexivity.
Qed.

(** Once the carried flag is false nothing more is appended. *)
Lemma rangeDiffs_false hasPath diffs resultDiffs :
  forallb (fun d => negb (pathless d)) diffs = true ->
  rangeDiffs hasPath diffs false resultDiffs = Done resultDiffs.
Proof.
  revert resultDiffs. induction diffs as [|diff rest IH]; intros resultDiffs H.
  - reflexivity.
  - simpl in H. apply andb_true_iff in H as [Hd Hrest].
    apply negb_true_iff in Hd. simpl.
    rewrite (rangeDetails_sound hasPath diff false Hd). simpl. now apply IH.
Qed.

Lemma rangeDiffs_leading hasPath diffs resultDiffs :
  forallb (fun d => negb (pathless d)) diffs = true ->
  rangeDiffs hasPath diffs true resultDiffs =
  Done (resultDiffs ++ Dyff.leading (ownChecks hasPath) diffs).
Proof.
  revert resultDiffs. induction diffs as [|diff rest IH]; intros resultDiffs H.
  - simpl. now rewrite app_nil_r.
  - simpl in H. apply andb_true_iff in H as [Hd Hrest].
    apply negb_true_iff in Hd. simpl.
    rewrite (rangeDetails_sound hasPath diff true Hd). simpl.
    destruct (ownChecks hasPath diff).
    + rewrite IH by assumption. now rewrite <- app_assoc.
    + rewrite rangeDiffs_false by assumption. now rewrite app_nil_r.
Qed.

Lemma rangeDiffs_pathless hasPath diffs includeDiff resultDiffs :
  existsb pathless diffs = true ->
  rangeDiffs hasPath diffs includeDiff resultDiffs = Panic NilDereference.
Proof.
  revert includeDiff resultDiffs.
  induction diffs as [|diff rest IH]; intros includeDiff resultDiffs H.
  - discriminate.
  - simpl in *. destruct (pathless diff) eqn:Hd.
    + now rewrite rangeDetails_pathless.
    + simpl in H.
      rewrite (rangeDetails_sound hasPath diff includeDiff Hd). simpl.
      now apply IH.
Qed.

Lemma filter_leading r hasPath :
  forallb (fun d => negb (pathless d)) (Dyff.Diffs r) = true ->
  filter r hasPath =
  Done (Dyff.mkReport (Dyff.From_ r) (Dyff.To_ r)
          (Dyff.leading (ownChecks hasPath) (Dyff.Diffs r))).
Proof.
  intros H. unfold Dyff.filter. now rewrite rangeDiffs_leading.
Qed.

Lemma pathless_split (diffs : list Diff) :
  existsb pathless diffs = true \/
  forallb (fun d => negb (pathless d)) diffs = true.
Proof.
  induction diffs as [|d rest [IH|IH]]; simpl.
  - now right.
  - left. rewrite IH. apply orb_true_r.
  - destruct (pathless d); simpl; [now left | now right].
Qed.

Lemma filter_Done_inv r hasPath res :
  filter r hasPath = Done res ->
  res = Dyff.mkReport (Dyff.From_ r) (Dyff.To_ r)
          (Dyff.leading (ownChecks hasPath) (Dyff.Diffs r)).
Proof.
  intros H. destruct (pathless_split (Dyff.Diffs r)) as [Hp|Hp].
  - unfold Dyff.filter in H. rewrite rangeDiffs_pathless in H by assumption.
    discriminate.
  - rewrite filter_leading in H by assumption. now inversion H.
Qed.

Lemma leading_In {A : Type} (f : A -> bool) (l : list A) (x : A) :
  In x (Dyff.leading f l) -> f x = true /\ In x l.
Proof.
  induction l as [|y l IH]; simpl; [tauto|].
  destruct (f y) eqn:Hy; simpl; [|tauto].
  intros [->|H]; [now split; [|left] | ].
  destruct (IH H). split; [assumption | now right].
Qed.

Lemma leading_sublist {A : Type} (f : A -> bool) (l : list A) :
  sublist (Dyff.leading f l) l.
Proof.
  induction l as [|y l IH]; simpl; [constructor|].
  destruct (f y); [now constructor | apply sublist_nil_l].
Qed.

Lemma ownChecks_hasPath hasPath d :
  ownChecks hasPath d = true -> hasPath (Dyff.DPath d) = true.
Proof. unfold Dyff.ownChecks. intros H. now apply andb_true_iff in H. Qed.

(** Two predicates that agree on every path filter alike. *)
Lemma rangeSubPaths_ext hasPath hasPath' diffPath subPaths includeDiff :
  (forall fp, hasPath fp = hasPath' fp) ->
  rangeSubPaths hasPath diffPath subPaths includeDiff =
  rangeSubPaths hasPath' diffPath subPaths includeDiff.
Proof.
  intros Hext. revert includeDiff.
  induction subPaths as [|x rest IH]; intros includeDiff; simpl; [reflexivity|].
  destruct diffPath; [|reflexivity]. now rewrite Hext, IH.
Qed.

Lemma rangeDiffs_ext hasPath hasPath' diffs includeDiff resultDiffs :
  (forall fp, hasPath fp = hasPath' fp) ->
  rangeDiffs hasPath diffs includeDiff resultDiffs =
  rangeDiffs hasPath' diffs includeDiff resultDiffs.
Proof.
  intros Hext. revert includeDiff resultDiffs.
  induction diffs as [|d rest IH]; intros includeDiff resultDiffs; simpl;
    [reflexivity|].
  rewrite !rangeDetails_eq, Hext.
  rewrite (rangeSubPaths_ext hasPath hasPath') by assumption.
  destruct (rangeSubPaths hasPath' _ _ _); simpl; [apply IH | reflexivity].
Qed.

Lemma filter_ext r hasPath hasPath' :
  (forall fp, hasPath fp = hasPath' fp) ->
  filter r hasPath = filter r hasPath'.
Proof.
  intros Hext. unfold Dyff.filter.
  now rewrite (rangeDiffs_ext hasPath hasPath').
Qed.

(** ** The path predicates *)

Lemma excludeHasPath_negb paths fp :
  excludeHasPath paths fp = negb (filterHasPath paths fp).
Proof.
  induction paths as [|s rest IH]; simpl; [reflexivity|].
  destruct (ParsePathStringUnsafe s) as [path|e]; [|assumption].
  destruct fp as [p|]; [|assumption].
  destruct (String.eqb (PathString path) (PathString p)); [reflexivity|assumption].
Qed.

Lemma filterHasPath_drop paths1 s paths2 e fp :
  ParsePathStringUnsafe s = Err e ->
  filterHasPath (paths1 ++ s :: paths2) fp = filterHasPath (paths1 ++ paths2) fp.
Proof.
  intros Hs. induction paths1 as [|x rest IH]; simpl.
  - now rewrite Hs.
  - destruct (ParsePathStringUnsafe x) as [path|]; [|assumption].
    destruct fp as [p|]; [|assumption].
    destruct (String.eqb (PathString path) (PathString p)); [reflexivity|assumption].
Qed.

Lemma nonempty_length {A : Type} (l : list A) :
  l <> [] -> Nat.eqb (length l) 0 = false.
Proof. destruct l; [congruence | reflexivity]. Qed.

Lemma mustCompileAll_invalid pattern :
  (exists p, In p pattern /\ Compile p = None) ->
  exists p, In p pattern /\ Compile p = None /\
            mustCompileAll pattern = Panic (RegexpMustCompile p).
Proof.
  induction pattern as [|x rest IH]; intros (p & Hin & Hp).
  - destruct Hin.
  - simpl. destruct (Compile x) as [re|] eqn:Hx.
    + destruct Hin as [->|Hin]; [congruence|].
      destruct IH as (q & Hq & Hc & Hall); [now exists p|].
      exists q. rewrite Hall. simpl. repeat split; [now right | assumption].
    + exists x. repeat split; [now left | assumption].
Qed.

(** ** [IgnoreValueChanges] in closed form *)

Lemma hasValChange_noModification (d : Diff) :
  Dyff.hasValChange (Dyff.Details d) = negb (Dyff.noModification d).
Proof.
  unfold Dyff.noModification.
  induction (Dyff.Details d) as [|det rest IH]; simpl; [reflexivity|].
  destruct (Dyff.Kind_eqb (Dyff.Kind_ det) Dyff.MODIFICATION); simpl;
    [reflexivity | assumption].
Qed.

Lemma rangeIgnore_filter (diffs resultDiffs : list Diff) :
  Dyff.rangeIgnore diffs resultDiffs =
  resultDiffs ++ List.filter Dyff.noModification diffs.
Proof.
  revert resultDiffs.
  induction diffs as [|d rest IH]; intros resultDiffs; simpl.
  - now rewrite app_nil_r.
  - rewrite IH, hasValChange_noModification, negb_involutive.
    destruct (Dyff.noModification d); [now rewrite <- app_assoc | reflexivity].
Qed.

Lemma Kind_eqb_eq (a b : Dyff.Kind) : Dyff.Kind_eqb a b = true <-> a = b.
Proof. destruct a, b; simpl; split; congruence. Qed.

(** ** The claims about the filters *)

(** C2 (as amended): for a non-empty path list and a report on which both
    calls return, no diff is in both the result of [Filter] and the result
    of [Exclude], each result is a subsequence of the report's diffs in
    their order, and the two path predicates are the negation of each
    other on every path, absent paths included. *)
Theorem Filter_Exclude_disjoint r paths F E :
  paths <> [] ->
  Filter r paths = Done F ->
  Exclude r paths = Done E ->
  (forall d, In d (Dyff.Diffs F) -> In d (Dyff.Diffs E) -> False) /\
  sublist (Dyff.Diffs F) (Dyff.Diffs r) /\
  sublist (Dyff.Diffs E) (Dyff.Diffs r) /\
  (forall fp, excludeHasPath paths fp = negb (filterHasPath paths fp)).
Proof.
  intros Hne HF HE. unfold Dyff.Filter, Dyff.Exclude in *.
  rewrite nonempty_length in HF, HE by assumption.
  apply filter_Done_inv in HF, HE. subst F E. simpl.
  repeat split; try apply leading_sublist; try apply excludeHasPath_negb.
  intros d HdF HdE.
  apply leading_In in HdF as [HdF _]. apply leading_In in HdE as [HdE _].
  apply ownChecks_hasPath in HdF, HdE.
  rewrite excludeHasPath_negb, HdF in HdE. discriminate.
Qed.

(** C3: with no argument, [Filter], [Exclude], [FilterRegexp] and
    [ExcludeRegexp] each return the report they were called on, unchanged. *)
Theorem zero_arguments_identity r :
  Filter r [] = Done r /\ Exclude r [] = Done r /\
  FilterRegexp r [] = Done r /\ ExcludeRegexp r [] = Done r.
Proof. repeat split. Qed.

(** C4: [IgnoreValueChanges] keeps the From and To identifiers, and its
    diffs are the input diffs without a MODIFICATION detail, in input
    order; a diff is kept exactly when none of its details has the kind
    MODIFICATION. *)
Theorem IgnoreValueChanges_keeps_unmodified r :
  Dyff.From_ (Dyff.IgnoreValueChanges r) = Dyff.From_ r /\
  Dyff.To_ (Dyff.IgnoreValueChanges r) = Dyff.To_ r /\
  Dyff.Diffs (Dyff.IgnoreValueChanges r) =
    List.filter Dyff.noModification (Dyff.Diffs r) /\
  (forall d, In d (Dyff.Diffs (Dyff.IgnoreValueChanges r)) <->
             In d (Dyff.Diffs r) /\
             forall detail, In detail (Dyff.Details d) ->
                            Dyff.Kind_ detail <> Dyff.MODIFICATION).
Proof.
  assert (Hd : Dyff.Diffs (Dyff.IgnoreValueChanges r) =
               List.filter Dyff.noModification (Dyff.Diffs r)).
  { simpl. now rewrite rangeIgnore_filter. }
  repeat split; try assumption.
  - rewrite Hd in H. now apply filter_In in H.
  - rewrite Hd in H. apply filter_In in H as [_ H].
    unfold Dyff.noModification in H. rewrite forallb_forall in H.
    intros detail Hin Hk. specialize (H detail Hin).
    apply negb_true_iff in H. apply Kind_eqb_eq in Hk. congruence.
  - intros [Hin Hk]. rewrite Hd. apply filter_In. split; [assumption|].
    unfold Dyff.noModification. apply forallb_forall. intros detail Hdet.
    apply negb_true_iff. destruct (Dyff.Kind_eqb _ _) eqn:Hk'; [|reflexivity].
    apply Kind_eqb_eq in Hk'. now apply Hk in Hdet.
Qed.

(** C5: on an absent path the predicates of [Filter] and [FilterRegexp]
    return false and the predicates of [Exclude] and [ExcludeRegexp]
    return true, whatever the arguments. *)
Theorem absent_path_asymmetry (paths : list string) (regexps : list Regexp) :
  filterHasPath paths None = false /\
  excludeHasPath paths None = true /\
  filterRegexpHasPath regexps None = false /\
  excludeRegexpHasPath regexps None = true.
Proof.
  repeat split.
  - induction paths as [|s rest IH]; simpl; [reflexivity|].
    now destruct (ParsePathStringUnsafe s).
  - induction paths as [|s rest IH]; simpl; [reflexivity|].
    now destruct (ParsePathStringUnsafe s).
  - induction regexps; simpl; [reflexivity | assumption].
  - induction regexps; simpl; [reflexivity | assumption].
Qed.

(** C6: a path string that does not parse changes neither predicate on any
    path, wherever it stands among the arguments, and the call of [Filter]
    or [Exclude] is the run of [filter] with the predicate of the other
    arguments: the parse error reaches no caller. *)
Theorem malformed_path_is_dropped paths1 s paths2 e :
  ParsePathStringUnsafe s = Err e ->
  (forall fp,
     filterHasPath (paths1 ++ s :: paths2) fp = filterHasPath (paths1 ++ paths2) fp /\
     excludeHasPath (paths1 ++ s :: paths2) fp = excludeHasPath (paths1 ++ paths2) fp) /\
  (forall r,
     Filter r (paths1 ++ s :: paths2) = filter r (filterHasPath (paths1 ++ paths2)) /\
     Exclude r (paths1 ++ s :: paths2) = filter r (excludeHasPath (paths1 ++ paths2))).
Proof.
  intros Hs.
  assert (Hdrop : forall fp,
    filterHasPath (paths1 ++ s :: paths2) fp = filterHasPath (paths1 ++ paths2) fp /\
    excludeHasPath (paths1 ++ s :: paths2) fp = excludeHasPath (paths1 ++ paths2) fp).
  { intros fp. rewrite !excludeHasPath_negb.
    now rewrite (filterHasPath_drop paths1 s paths2 e fp Hs). }
  split; [assumption|]. intros r. unfold Dyff.Filter, Dyff.Exclude.
  rewrite nonempty_length by (now destruct paths1).
  split; apply filter_ext; intros fp; apply Hdrop.
Qed.

(** C7: when one of the patterns does not compile, [FilterRegexp] and
    [ExcludeRegexp] panic in [regexp.MustCompile] on the first such
    pattern, and they do so on every report, the ones [filter] itself
    would fault on included: the call ends before the loop over the diffs
    starts and no predicate is applied. *)
Theorem invalid_regexp_fails_call pattern :
  (exists p, In p pattern /\ Compile p = None) ->
  exists p, In p pattern /\ Compile p = None /\
    forall r,
      FilterRegexp r pattern = Panic (RegexpMustCompile p) /\
      ExcludeRegexp r pattern = Panic (RegexpMustCompile p).
Proof.
  intros Hbad.
  assert (Hne : pattern <> []) by (destruct Hbad as (p & Hin & _); now destruct pattern).
  destruct (mustCompileAll_invalid pattern Hbad) as (p & Hin & Hp & Hall).
  exists p. repeat split; try assumption;
    unfold Dyff.FilterRegexp, Dyff.ExcludeRegexp;
    rewrite nonempty_length by assumption; now rewrite Hall.
Qed.

(** C10: a report with a diff that has no path and a detail whose From or
    To value holds at least one sub-path makes [filter] dereference the
    nil path: the call panics, whatever the predicate. *)
Theorem filter_nil_path_faults r hasPath d detail n subPath subPaths :
  In d (Dyff.Diffs r) ->
  Dyff.DPath d = None ->
  In detail (Dyff.Details d) ->
  Dyff.DFrom detail = Some n \/ Dyff.DTo detail = Some n ->
  ListPathsInNode n = Ok (subPath :: subPaths) ->
  filter r hasPath = Panic NilDereference.
Proof.
  intros Hd Hnil Hdet Hnode Hsub.
  assert (Hin : In subPath (diffSubPaths d)).
  { unfold Dyff.diffSubPaths. apply in_flat_map. exists detail.
    split; [assumption|]. unfold Dyff.detailSubPaths. apply in_app_iff.
    destruct Hnode as [Hn|Hn]; [left | right]; rewrite Hn; simpl;
      rewrite Hsub; now left. }
  assert (Hp : pathless d = true).
  { unfold Dyff.pathless. rewrite Hnil.
    destruct (diffSubPaths d); [destruct Hin | reflexivity]. }
  unfold Dyff.filter. rewrite rangeDiffs_pathless; [reflexivity|].
  apply existsb_exists. now exists d.
Qed.

(** X1: what [filter] returns when every diff has a path: the From and To
    identifiers of the report, and of its diffs the longest leading run in
    which each diff passes its own checks. *)
Theorem filter_keeps_leading_run r hasPath :
  (forall d, In d (Dyff.Diffs r) -> Dyff.DPath d <> None) ->
  filter r hasPath =
  Done (Dyff.mkReport (Dyff.From_ r) (Dyff.To_ r)
          (Dyff.leading (ownChecks hasPath) (Dyff.Diffs r))).
Proof.
  intros Hall. apply filter_leading. apply forallb_forall. intros d Hd.
  apply negb_true_iff. specialize (Hall d Hd). unfold Dyff.pathless.
  destruct (Dyff.DPath d); [reflexivity | congruence].
Qed.

(** X2: every diff of a filtered report is a diff of the input that passes its
    own checks, the ones on the sub-paths of its values included. *)
Theorem filter_result_passes_checks r hasPath res d :
  filter r hasPath = Done res ->
  In d (Dyff.Diffs res) ->
  In d (Dyff.Diffs r) /\ ownChecks hasPath d = true.
Proof.
  intros Hres Hd. apply filter_Done_inv in Hres. subst res. simpl in Hd.
  apply leading_In in Hd. tauto.
Qed.

(** ** More on [filter]: faults and composition *)

Lemma filter_Done_no_pathless r hasPath res :
  filter r hasPath = Done res ->
  forallb (fun d => negb (pathless d)) (Dyff.Diffs r) = true.
Proof.
  intros H. destruct (pathless_split (Dyff.Diffs r)) as [Hp|Hp]; [|assumption].
  unfold Dyff.filter in H. rewrite rangeDiffs_pathless in H by assumption.
  discriminate.
Qed.

Lemma leading_forallb {A : Type} (f g : A -> bool) (l : list A) :
  forallb g l = true -> forallb g (Dyff.leading f l) = true.
Proof.
  induction l as [|x l IH]; simpl; [reflexivity|].
  intros H. apply andb_true_iff in H as [Hx Hl].
  destruct (f x); simpl; [|reflexivity]. rewrite Hx. now apply IH.
Qed.

Lemma leading_leading {A : Type} (f g : A -> bool) (l : list A) :
  Dyff.leading g (Dyff.leading f l) = Dyff.leading (fun x => f x && g x) l.
Proof.
  induction l as [|x l IH]; simpl; [reflexivity|].
  destruct (f x); simpl; [|reflexivity].
  destruct (g x); [now rewrite IH | reflexivity].
Qed.

Lemma leading_ext {A : Type} (f g : A -> bool) (l : list A) :
  (forall x, f x = g x) -> Dyff.leading f l = Dyff.leading g l.
Proof.
  intros H. induction l as [|x l IH]; simpl; [reflexivity|].
  now rewrite H, IH.
Qed.

Lemma forallb_andb {A : Type} (f g : A -> bool) (l : list A) :
  forallb (fun x => f x && g x) l = forallb f l && forallb g l.
Proof.
  induction l as [|x l IH]; simpl; [reflexivity|]. rewrite IH.
  destruct (f x), (g x), (forallb f l), (forallb g l); reflexivity.
Qed.

Lemma ownChecks_andb hasPath hasPath' d :
  ownChecks (fun fp => hasPath fp && hasPath' fp) d =
  ownChecks hasPath d && ownChecks hasPath' d.
Proof.
  unfold Dyff.ownChecks. destruct (Dyff.DPath d) as [p|].
  - rewrite (forallb_andb (fun subPath => hasPath (Some (AppendPath p subPath)))
               (fun subPath => hasPath' (Some (AppendPath p subPath)))).
    destruct (hasPath (Some p)), (hasPath' (Some p)),
      (forallb _ (diffSubPaths d)), (forallb _ (diffSubPaths d)); reflexivity.
  - destruct (hasPath None), (hasPath' None); reflexivity.
Qed.

Lemma ownChecks_subPath hasPath d p subPath :
  ownChecks hasPath d = true ->
  Dyff.DPath d = Some p ->
  In subPath (diffSubPaths d) ->
  hasPath (Some (AppendPath p subPath)) = true.
Proof.
  unfold Dyff.ownChecks. intros H Hp Hin. rewrite Hp in H.
  apply andb_true_iff in H as [_ H]. rewrite forallb_forall in H.
  now apply H.
Qed.

(** X3: [filter] panics on the nil path exactly when the report holds a
    diff without a path whose From or To values hold a sub-path; the
    predicate plays no part in it. *)
Theorem filter_faults_iff r hasPath :
  filter r hasPath = Panic NilDereference <->
  exists d, In d (Dyff.Diffs r) /\ Dyff.DPath d = None /\ diffSubPaths d <> [].
Proof.
  split.
  - intros H. destruct (pathless_split (Dyff.Diffs r)) as [Hp|Hp].
    + apply existsb_exists in Hp as (d & Hd & Hp). exists d.
      split; [assumption|]. unfold Dyff.pathless in Hp.
      destruct (Dyff.DPath d); [discriminate|].
      destruct (diffSubPaths d); [discriminate|]. now split.
    + rewrite filter_leading in H by assumption. discriminate.
  - intros (d & Hd & Hnil & Hsub). unfold Dyff.filter.
    rewrite rangeDiffs_pathless; [reflexivity|].
    apply existsb_exists. exists d. split; [assumption|].
    unfold Dyff.pathless. rewrite Hnil.
    destruct (diffSubPaths d); [congruence | reflexivity].
Qed.

(** X4: filtering what [filter] returned with the same predicate changes
    nothing. *)
Theorem filter_idempotent r hasPath res :
  filter r hasPath = Done res ->
  filter res hasPath = Done res.
Proof.
  intros H. pose proof (filter_Done_no_pathless r hasPath res H) as Hp.
  apply filter_Done_inv in H. subst res.
  rewrite filter_leading; simpl.
  - rewrite leading_leading. f_equal. f_equal. apply leading_ext.
    intros d. now destruct (ownChecks hasPath d).
  - now apply leading_forallb.
Qed.

(** X5: filtering the result of one [filter] with a second predicate is
    filtering the report once with the conjunction of the two. *)
Theorem filter_twice r hasPath hasPath' res :
  filter r hasPath = Done res ->
  filter res hasPath' = filter r (fun fp => hasPath fp && hasPath' fp).
Proof.
  intros H. pose proof (filter_Done_no_pathless r hasPath res H) as Hp.
  apply filter_Done_inv in H. subst res.
  rewrite !filter_leading; simpl; try assumption.
  - rewrite leading_leading. f_equal. f_equal. apply leading_ext.
    intros d. now rewrite ownChecks_andb.
  - now apply leading_forallb.
Qed.

(** ** What the four filters keep *)

Lemma filterHasPath_true paths fp :
  filterHasPath paths fp = true <->
  exists p s path,
    fp = Some p /\ In s paths /\ ParsePathStringUnsafe s = Ok path /\
    PathString path = PathString p.
Proof.
  induction paths as [|x rest IH]; simpl.
  - split; [discriminate | intros (p & s & path & _ & [] & _)].
  - split.
    + destruct (ParsePathStringUnsafe x) as [path|e] eqn:Hx.
      * destruct fp as [p|].
        -- destruct (String.eqb (PathString path) (PathString p)) eqn:He.
           ++ intros _. apply String.eqb_eq in He.
              exists p, x, path. repeat split; [now left | assumption | assumption].
           ++ intros H. apply IH in H as (p' & s & path' & Hp & Hin & Hs & He').
              exists p', s, path'. repeat split; [assumption | now right | assumption | assumption].
        -- intros H. apply IH in H as (p' & _ & _ & Hp & _). discriminate.
      * intros H. apply IH in H as (p' & s & path' & Hp & Hin & Hs & He').
        exists p', s, path'. repeat split; [assumption | now right | assumption | assumption].
    + intros (p & s & path & -> & [->|Hin] & Hs & He).
      * rewrite Hs, He, String.eqb_refl. reflexivity.
      * assert (Hrest : filterHasPath rest (Some p) = true).
        { apply IH. exists p, s, path. now repeat split. }
        destruct (ParsePathStringUnsafe x); [|assumption].
        now destruct (String.eqb _ _).
Qed.

(** X6: every diff that [Filter] keeps has a path, and the string of that
    path, like the string of every sub-path of the diff's values appended
    to it, is the string of one of the arguments that parse. *)
Theorem Filter_keeps_listed_paths r paths F d :
  paths <> [] ->
  Filter r paths = Done F ->
  In d (Dyff.Diffs F) ->
  exists p,
    Dyff.DPath d = Some p /\
    forall q,
      q = p \/ (exists subPath, In subPath (diffSubPaths d) /\ q = AppendPath p subPath) ->
      exists s path,
        In s paths /\ ParsePathStringUnsafe s = Ok path /\
        PathString path = PathString q.
Proof.
  intros Hne HF Hd. unfold Dyff.Filter in HF.
  rewrite nonempty_length in HF by assumption.
  apply filter_Done_inv in HF. subst F. simpl in Hd.
  apply leading_In in Hd as [Hchecks _].
  pose proof (ownChecks_hasPath _ _ Hchecks) as Hown.
  apply filterHasPath_true in Hown as (p & s & path & Hp & Hin & Hs & He).
  exists p. split; [assumption|].
  intros q [->|(subPath & Hsub & ->)].
  - now exists s, path.
  - pose proof (ownChecks_subPath _ _ _ _ Hchecks Hp Hsub) as H.
    apply filterHasPath_true in H as (p' & s' & path' & Hp' & Hin' & Hs' & He').
    inversion Hp'; subst p'. now exists s', path'.
Qed.

(** X7: no diff that [Exclude] keeps has a path whose string is the string
    of an argument that parses, nor a sub-path of its values that, appended
    to its path, has such a string. *)
Theorem Exclude_drops_listed_paths r paths E d p q s path :
  paths <> [] ->
  Exclude r paths = Done E ->
  In d (Dyff.Diffs E) ->
  Dyff.DPath d = Some p ->
  q = p \/ (exists subPath, In subPath (diffSubPaths d) /\ q = AppendPath p subPath) ->
  In s paths ->
  ParsePathStringUnsafe s = Ok path ->
  PathString path <> PathString q.
Proof.
  intros Hne HE Hd Hp Hq Hin Hs He. unfold Dyff.Exclude in HE.
  rewrite nonempty_length in HE by assumption.
  apply filter_Done_inv in HE. subst E. simpl in Hd.
  apply leading_In in Hd as [Hchecks _].
  assert (Hex : excludeHasPath paths (Some q) = true).
  { destruct Hq as [->|(subPath & Hsub & ->)].
    - rewrite <- Hp. now apply ownChecks_hasPath.
    - now apply (ownChecks_subPath _ d). }
  rewrite excludeHasPath_negb in Hex. apply negb_true_iff in Hex.
  assert (Hin' : filterHasPath paths (Some q) = true).
  { apply filterHasPath_true. now exists q, s, path. }
  congruence.
Qed.

(** X8: with a non-empty list of strings none of which parses, and a report
    in which every diff has a path, [Filter] returns the report without any
    diff and [Exclude] returns the report as it is. *)
Theorem only_malformed_paths r paths :
  paths <> [] ->
  (forall s, In s paths -> exists e, ParsePathStringUnsafe s = Err e) ->
  (forall d, In d (Dyff.Diffs r) -> Dyff.DPath d <> None) ->
  Filter r paths = Done (Dyff.mkReport (Dyff.From_ r) (Dyff.To_ r) []) /\
  Exclude r paths = Done r.
Proof.
  intros Hne Hbad Hpaths.
  assert (Hf : forall fp, filterHasPath paths fp = false).
  { intros fp. destruct (filterHasPath paths fp) eqn:H; [|reflexivity].
    apply filterHasPath_true in H as (p & s & path & _ & Hin & Hs & _).
    destruct (Hbad s Hin) as [e He]. congruence. }
  assert (Hnp : forallb (fun d => negb (pathless d)) (Dyff.Diffs r) = true).
  { apply forallb_forall. intros d Hd. apply negb_true_iff.
    specialize (Hpaths d Hd). unfold Dyff.pathless.
    destruct (Dyff.DPath d); [reflexivity | congruence]. }
  unfold Dyff.Filter, Dyff.Exclude. rewrite nonempty_length by assumption.
  rewrite !filter_leading by assumption. split; f_equal.
  - f_equal. destruct (Dyff.Diffs r) as [|d rest]; [reflexivity|]. simpl.
    unfold Dyff.ownChecks. now rewrite Hf.
  - destruct r as [from to diffs]. simpl. f_equal.
    clear Hnp Hpaths. induction diffs as [|d rest IH]; simpl; [reflexivity|].
    assert (Hd : ownChecks (excludeHasPath paths) d = true).
    { unfold Dyff.ownChecks. rewrite excludeHasPath_negb, Hf. simpl.
      destruct (Dyff.DPath d); [|reflexivity].
      apply forallb_forall. intros x _. now rewrite excludeHasPath_negb, Hf. }
    now rewrite Hd, IH.
Qed.

Lemma mustCompileAll_Done pattern regexps :
  mustCompileAll pattern = Done regexps <->
  Forall2 (fun pat re => Compile pat = Some re) pattern regexps.
Proof.
  revert regexps. induction pattern as [|pat rest IH]; intros regexps; simpl.
  - split.
    + intros H. inversion H. constructor.
    + intros H. now inversion H.
  - destruct (Compile pat) as [re|] eqn:Hpat.
    + destruct (mustCompileAll rest) as [res|f] eqn:Hrest; simpl.
      * split.
        -- intros H. inversion H. constructor; [assumption | now apply IH].
        -- intros H. inversion H as [|? re' ? res' Hre Hres]; subst.
           apply IH in Hres. inversion Hres. congruence.
      * split; [discriminate|].
        intros H. inversion H as [|? re' ? res' Hre Hres]; subst.
        apply IH in Hres. discriminate.
    + split; [discriminate|].
      intros H. inversion H; subst. congruence.
Qed.

Lemma filterRegexpHasPath_true regexps fp :
  filterRegexpHasPath regexps fp = true <->
  exists p re, fp = Some p /\ In re regexps /\ MatchString re (PathString p) = true.
Proof.
  induction regexps as [|re rest IH]; simpl.
  - split; [discriminate | intros (p & re & _ & [] & _)].
  - destruct fp as [p|].
    + destruct (MatchString re (PathString p)) eqn:Hm.
      * split; [|reflexivity]. intros _. exists p, re. repeat split; [now left | assumption].
      * rewrite IH. split.
        -- intros (p' & re' & Hp & Hin & Hm'). exists p', re'.
           repeat split; [assumption | now right | assumption].
        -- intros (p' & re' & Hp & [->|Hin] & Hm').
           ++ inversion Hp; subst. congruence.
           ++ now exists p', re'.
    + rewrite IH. split.
      * intros (p' & _ & Hp & _). discriminate.
      * intros (p' & _ & Hp & _). discriminate.
Qed.

Lemma excludeRegexpHasPath_negb regexps fp :
  excludeRegexpHasPath regexps fp = negb (filterRegexpHasPath regexps fp).
Proof.
  induction regexps as [|re rest IH]; simpl; [reflexivity|].
  destruct fp as [p|]; [|assumption].
  destruct (MatchString re (PathString p)); [reflexivity | assumption].
Qed.

Lemma Forall2_In_r {A B : Type} (R : A -> B -> Prop) (l : list A) (l' : list B) (y : B) :
  Forall2 R l l' -> In y l' -> exists x, In x l /\ R x y.
Proof.
  induction 1 as [|a b l l' Hab Hrest IH]; simpl; [tauto|].
  intros [->|Hin].
  - exists a. split; [now left | assumption].
  - destruct (IH Hin) as (x & Hx & HR). exists x. split; [now right | assumption].
Qed.

Lemma Forall2_In_l {A B : Type} (R : A -> B -> Prop) (l : list A) (l' : list B) (x : A) :
  Forall2 R l l' -> In x l -> exists y, In y l' /\ R x y.
Proof.
  induction 1 as [|a b l l' Hab Hrest IH]; simpl; [tauto|].
  intros [->|Hin].
  - exists b. split; [now left | assumption].
  - destruct (IH Hin) as (y & Hy & HR). exists y. split; [now right | assumption].
Qed.

(** X9: every diff that [FilterRegexp] keeps has a path whose string is
    matched by one of the patterns. *)
Theorem FilterRegexp_keeps_matching r pattern F d :
  pattern <> [] ->
  FilterRegexp r pattern = Done F ->
  In d (Dyff.Diffs F) ->
  exists p pat re,
    Dyff.DPath d = Some p /\ In pat pattern /\ Compile pat = Some re /\
    MatchString re (PathString p) = true.
Proof.
  intros Hne HF Hd. unfold Dyff.FilterRegexp in HF.
  rewrite nonempty_length in HF by assumption.
  destruct (mustCompileAll pattern) as [regexps|f] eqn:Hc; [|discriminate].
  simpl in HF. apply mustCompileAll_Done in Hc.
  apply filter_Done_inv in HF. subst F. simpl in Hd.
  apply leading_In in Hd as [Hchecks _]. apply ownChecks_hasPath in Hchecks.
  apply filterRegexpHasPath_true in Hchecks as (p & re & Hp & Hin & Hm).
  destruct (Forall2_In_r _ _ _ _ Hc Hin) as (pat & Hpat & Hre).
  now exists p, pat, re.
Qed.

(** X10: no diff that [ExcludeRegexp] keeps has a path whose string is
    matched by one of the patterns. *)
Theorem ExcludeRegexp_drops_matching r pattern E d p pat re :
  pattern <> [] ->
  ExcludeRegexp r pattern = Done E ->
  In d (Dyff.Diffs E) ->
  Dyff.DPath d = Some p ->
  In pat pattern ->
  Compile pat = Some re ->
  MatchString re (PathString p) = false.
Proof.
  intros Hne HE Hd Hp Hpat Hre. unfold Dyff.ExcludeRegexp in HE.
  rewrite nonempty_length in HE by assumption.
  destruct (mustCompileAll pattern) as [regexps|f] eqn:Hc; [|discriminate].
  simpl in HE. apply mustCompileAll_Done in Hc.
  apply filter_Done_inv in HE. subst E. simpl in Hd.
  apply leading_In in Hd as [Hchecks _]. apply ownChecks_hasPath in Hchecks.
  rewrite Hp, excludeRegexpHasPath_negb in Hchecks.
  apply negb_true_iff in Hchecks.
  destruct (Forall2_In_l _ _ _ _ Hc Hpat) as (re' & Hin & Hre').
  assert (re' = re) by congruence. subst re'.
  destruct (MatchString re (PathString p)) eqn:Hm; [|reflexivity].
  assert (filterRegexpHasPath regexps (Some p) = true).
  { apply filterRegexpHasPath_true. now exists p, re. }
  congruence.
Qed.

(** X11: [IgnoreValueChanges] applied to its own result changes nothing. *)
Theorem IgnoreValueChanges_idempotent r :
  Dyff.IgnoreValueChanges (Dyff.IgnoreValueChanges r) = Dyff.IgnoreValueChanges r.
Proof.
  unfold Dyff.IgnoreValueChanges. simpl. f_equal.
  rewrite !rangeIgnore_filter. simpl.
  induction (Dyff.Diffs r) as [|d rest IH]; simpl; [reflexivity|].
  destruct (Dyff.noModification d) eqn:Hd; simpl; [|assumption].
  now rewrite Hd, IH.
Qed.

End FilterFacts.

(** * Properties of the output processor *)

Lemma append_assoc (a b c : string) : (a +:+ b) +:+ c = a +:+ (b +:+ c).
Proof.
  induction a as [|x a IH]; [reflexivity|].
  change (String x ((a +:+ b) +:+ c) = String x (a +:+ (b +:+ c))).
  now rewrite IH.
Qed.

Lemma append_empty_r (a : string) : a +:+ "" = a.
Proof.
  induction a as [|x a IH]; [reflexivity|].
  change (String x (a +:+ "") = String x a). now rewrite IH.
Qed.

Section NeatFacts.

Context {Color : Type}.
Variable Colorize : string -> Color -> string.
Variable Bold : string -> string.
Variable Marshal : Neat.Value -> result string.
Variable FormatV : Neat.Value -> string.
Variable TrimSpace : string -> string.
Variable p : Neat.OutputProcessor Color.

Abbreviation colorize := (Neat.colorize Colorize p).
Abbreviation prefixAdd := (Neat.prefixAdd Colorize p).
Abbreviation rangeLines := (Neat.rangeLines Colorize p).
Abbreviation neatScalar := (Neat.neatScalar Colorize Marshal TrimSpace p).
Abbreviation neat := (Neat.neat Colorize Bold Marshal FormatV TrimSpace p).
Abbreviation neatMapSliceFrom :=
  (Neat.neatMapSliceFrom Colorize Bold Marshal FormatV TrimSpace p).
Abbreviation neatMapSlice :=
  (Neat.neatMapSlice Colorize Bold Marshal FormatV TrimSpace p).
Abbreviation neatSlice := (Neat.neatSlice Colorize Bold Marshal FormatV TrimSpace p).
Abbreviation neatMapSliceSlice :=
  (Neat.neatMapSliceSlice Colorize Bold Marshal FormatV TrimSpace p).

Abbreviation keyText := (Neat.keyText Colorize Bold FormatV p).
Abbreviation laterLines := (Neat.laterLines Colorize p).

Lemma rangeLines_later prefix color i lines out :
  rangeLines prefix color (S i) lines out = out +:+ laterLines prefix color lines.
Proof.
  revert i out. induction lines as [|line rest IH]; intros i out.
  - simpl. now rewrite append_empty_r.
  - cbn [Neat.rangeLines Neat.laterLines foldr]. rewrite IH.
    unfold Neat.WriteString. cbn [Nat.ltb Nat.leb].
    now rewrite !append_assoc.
Qed.

(** A scalar that is not nil and marshals: the lines of the trimmed text
    go through the loop, in the color chosen from their number and from
    the dynamic type. *)
Lemma neatScalar_marshalled prefix skip obj out data :
  obj <> Neat.VNil ->
  Marshal obj = Ok data ->
  neatScalar prefix skip obj out =
  (rangeLines prefix
     (if Nat.ltb 1 (length (Neat.Split (TrimSpace data))) then "multiLineTextColor"
      else match obj with
           | Neat.VBool _ => "boolColor"
           | Neat.VFloat _ => "floatColor"
           | Neat.VInt _ => "intColor"
           | _ => "scalarDefaultColor"
           end)
     0 (Neat.Split (TrimSpace data)) out, None).
Proof.
  intros Hnil HM. unfold Neat.neatScalar. rewrite HM.
  destruct obj; try reflexivity. congruence.
Qed.

(** The item of a mapping whose value is a non-empty [[]interface{}]: the
    key, a line feed, then [neatSlice] at the prefix of the mapping. *)
Lemma neatMapSliceFrom_Slice i prefix skip key entry entries rest out :
  neatMapSliceFrom i prefix skip
    (Neat.MapItem key (Neat.VSlice (Neat.SliceCons entry entries)) rest) out =
  Neat.orReturn
    (neatSlice prefix false (Neat.SliceCons entry entries)
       (((if negb skip || Nat.ltb 0 i then out +:+ prefix else out)
         +:+ keyText key) +:+ nl))
    (neatMapSliceFrom (S i) prefix skip rest).
Proof. reflexivity. Qed.

(** The item of a mapping whose value is a [[]yaml.MapSlice], empty or not:
    the key, a space, then [neatScalar] on the whole sequence. *)
Lemma neatMapSliceFrom_MapSliceSlice i prefix skip key l rest out :
  neatMapSliceFrom i prefix skip
    (Neat.MapItem key (Neat.VMapSliceSlice l) rest) out =
  Neat.orReturn
    (neatScalar prefix false (Neat.VMapSliceSlice l)
       (((if negb skip || Nat.ltb 0 i then out +:+ prefix else out)
         +:+ keyText key) +:+ " "))
    (neatMapSliceFrom (S i) prefix skip rest).
Proof. reflexivity. Qed.

(** ** The claims about the renderer *)

(** With a schema that names the color, [colorize] is [bunt.Colorize] with
    the color found under the name. *)
Lemma colorize_schema (schema : gmap string Color) (c : Color) text colorName :
  Neat.colorSchema p = Some schema ->
  schema !! colorName = Some c ->
  colorize text colorName = Colorize text c.
Proof. intros Hs Hc. unfold Neat.colorize. now rewrite Hs, Hc. Qed.

Lemma laterLines_schema (schema : gmap string Color) (c : Color) prefix colorName lines :
  Neat.colorSchema p = Some schema ->
  schema !! colorName = Some c ->
  laterLines prefix colorName lines =
  Neat.prefixedLines prefix (fun line => Colorize line c) lines.
Proof.
  intros Hs Hc. unfold Neat.laterLines, Neat.prefixedLines.
  induction lines as [|line rest IH]; [reflexivity|].
  cbn [foldr]. rewrite IH. now rewrite (colorize_schema schema c).
Qed.


(** ** Writing only behind the buffer *)

Lemma Appends_write (text : string) :
  Neat.Appends (fun out => (out +:+ text, None)).
Proof. intros out. reflexivity. Qed.

Lemma Appends_after (text : string) (f : Neat.Buffer -> Neat.Step) :
  Neat.Appends f -> Neat.Appends (fun out => f (out +:+ text)).
Proof.
  intros Hf out. cbv beta.
  rewrite (Hf (out +:+ text)). change ("" +:+ text) with text.
  rewrite (Hf text). cbn [fst snd]. now rewrite append_assoc.
Qed.

Lemma Appends_orReturn (f k : Neat.Buffer -> Neat.Step) :
  Neat.Appends f -> Neat.Appends k ->
  Neat.Appends (fun out => Neat.orReturn (f out) k).
Proof.
  intros Hf Hk out. cbv beta. rewrite (Hf out).
  destruct (f "") as [text [err|]] eqn:Hempty; cbn [fst snd Neat.orReturn].
  - reflexivity.
  - rewrite (Hk (out +:+ text)), (Hk text). cbn [fst snd].
    now rewrite append_assoc.
Qed.

Lemma rangeLines_appends prefix color i lines :
  Neat.Appends (fun out => (rangeLines prefix color i lines out, None)).
Proof.
  intros out. cbv beta. cbn [fst snd]. f_equal.
  revert i out. induction lines as [|line rest IH]; intros i out.
  - simpl. now rewrite append_empty_r.
  - cbn [Neat.rangeLines]. rewrite IH.
    rewrite (IH (S i) (Neat.WriteString _ nl)).
    unfold Neat.WriteString.
    destruct (Nat.ltb 0 i); change ("" +:+ ?x) with x;
      now rewrite !append_assoc.
Qed.

Lemma neatScalar_appends prefix skip obj :
  Neat.Appends (neatScalar prefix skip obj).
Proof.
  assert (Hnil : Neat.Appends
            (fun out => ((out +:+ colorize "null" "nullColor") +:+ nl, None))).
  { intros out. cbn [fst snd]. change ("" +:+ ?x) with x.
    now rewrite append_assoc. }
  assert (Hother : forall color, Neat.Appends (fun out =>
            match Marshal obj with
            | Err err => (out, Some err)
            | Ok data =>
                (rangeLines prefix
                   (if Nat.ltb 1 (length (Neat.Split (TrimSpace data)))
                    then "multiLineTextColor" else color)
                   0 (Neat.Split (TrimSpace data)) out, None)
            end)).
  { intros color. destruct (Marshal obj) as [data|err].
    - apply rangeLines_appends.
    - intros out. cbn [fst snd]. now rewrite append_empty_r. }
  destruct obj; first [exact Hnil | apply Hother].
Qed.

(** Whatever holds of writing a text, of running a step behind a text, of
    chaining two steps with the error check between them and of
    [neatScalar] holds of the four renderers. *)
Lemma renderers_ind (R : (Neat.Buffer -> Neat.Step) -> Prop) :
  R (fun out => (out, None)) ->
  (forall text, R (fun out => (out +:+ text, None))) ->
  (forall text f, R f -> R (fun out => f (out +:+ text))) ->
  (forall f k, R f -> R k -> R (fun out => Neat.orReturn (f out) k)) ->
  (forall prefix skip obj, R (neatScalar prefix skip obj)) ->
  (forall obj prefix skip, R (neat prefix skip obj)) /\
  (forall m i prefix skip, R (neatMapSliceFrom i prefix skip m)) /\
  (forall l prefix skip, R (neatSlice prefix skip l)) /\
  (forall l prefix skip, R (neatMapSliceSlice prefix skip l)).
Proof.
  intros Hskip Hwrite Hafter Hchain Hscalar.
  apply (Neat.Value_mutind
      (fun obj => forall prefix skip, R (neat prefix skip obj))
      (fun m => forall i prefix skip, R (neatMapSliceFrom i prefix skip m))
      (fun l => forall prefix skip, R (neatSlice prefix skip l))
      (fun l => forall prefix skip, R (neatMapSliceSlice prefix skip l)));
      try (intros; apply Hscalar).
  - intros m IH prefix skip. exact (IH 0 prefix skip).
  - intros l IH prefix skip. exact (IH prefix skip).
  - intros l IH prefix skip. exact (IH prefix skip).
  - intros i prefix skip. exact Hskip.
  - intros key _ value IHv rest IHrest i prefix skip.
    assert (Hinner : R (fun out =>
              match value with
              | Neat.VMapSlice m =>
                  match m with
                  | Neat.MapNil =>
                      (((out +:+ " ") +:+ colorize "{}" "emptyStructures") +:+ nl, None)
                  | Neat.MapItem _ _ _ =>
                      neatMapSliceFrom 0 (prefix +:+ prefixAdd) false m (out +:+ nl)
                  end
              | Neat.VSlice l =>
                  match l with
                  | Neat.SliceNil =>
                      (((out +:+ " ") +:+ colorize "[]" "emptyStructures") +:+ nl, None)
                  | Neat.SliceCons _ _ => neatSlice prefix false l (out +:+ nl)
                  end
              | _ => neatScalar prefix false value (out +:+ " ")
              end)).
    { destruct value as [m|l| | | | | | |];
        try (apply (Hafter " " (neatScalar prefix false _)); apply Hscalar).
      - destruct m.
        + apply (Hafter " "
                   (fun out => ((out +:+ colorize "{}" "emptyStructures") +:+ nl, None))).
          apply (Hafter (colorize "{}" "emptyStructures")
                   (fun out => (out +:+ nl, None))).
          apply Hwrite.
        + apply (Hafter nl
                   (neat (prefix +:+ prefixAdd) false (Neat.VMapSlice (Neat.MapItem _ _ _)))).
          apply IHv.
      - destruct l.
        + apply (Hafter " "
                   (fun out => ((out +:+ colorize "[]" "emptyStructures") +:+ nl, None))).
          apply (Hafter (colorize "[]" "emptyStructures")
                   (fun out => (out +:+ nl, None))).
          apply Hwrite.
        + apply (Hafter nl (neat prefix false (Neat.VSlice (Neat.SliceCons _ _)))).
          apply IHv. }
    pose proof (Hchain _ _ (Hafter (keyText key) _ Hinner)
                  (IHrest (S i) prefix skip)) as Hitem.
    cbn [Neat.neatMapSliceFrom]. unfold Neat.WriteString.
    destruct (negb skip || Nat.ltb 0 i).
    + exact (Hafter prefix _ Hitem).
    + exact Hitem.
  - intros prefix skip. exact Hskip.
  - intros entry IHe rest IHrest prefix skip.
    exact (Hafter prefix _
             (Hafter (Bold "- ") _
                (Hchain _ _ (IHe (prefix +:+ prefixAdd) true) (IHrest prefix skip)))).
  - intros prefix skip. exact Hskip.
  - intros entry IHe rest IHrest prefix skip.
    exact (Hafter prefix _
             (Hafter (Bold "- ") _
                (Hchain _ _ (IHe 0 (prefix +:+ prefixAdd) true) (IHrest prefix skip)))).
Qed.

Lemma neat_appends_all :
  (forall obj prefix skip, Neat.Appends (neat prefix skip obj)) /\
  (forall m i prefix skip, Neat.Appends (neatMapSliceFrom i prefix skip m)) /\
  (forall l prefix skip, Neat.Appends (neatSlice prefix skip l)) /\
  (forall l prefix skip, Neat.Appends (neatMapSliceSlice prefix skip l)).
Proof.
  apply renderers_ind.
  - intros out. cbn [fst snd]. now rewrite append_empty_r.
  - apply Appends_write.
  - apply Appends_after.
  - apply Appends_orReturn.
  - apply neatScalar_appends.
Qed.

(** X12: [neat] on any value writes behind what the buffer holds and
    changes none of it; the text it adds and the error it returns are those
    of the same call on an empty buffer. *)
Theorem neat_appends prefix skip obj out :
  neat prefix skip obj out =
  (out +:+ fst (neat prefix skip obj ""), snd (neat prefix skip obj "")).
Proof. destruct neat_appends_all as [H _]. apply H. Qed.

(** ** Errors *)

Lemma neat_error_from_Marshal prefix skip obj out err :
  snd (neat prefix skip obj out) = Some err ->
  exists v, Marshal v = Err err.
Proof.
  revert out err.
  assert (H : forall obj prefix skip,
             (fun f : Neat.Buffer -> Neat.Step =>
                forall out err, snd (f out) = Some err -> exists v, Marshal v = Err err)
               (neat prefix skip obj)).
  { apply (renderers_ind (fun f =>
             forall out err, snd (f out) = Some err -> exists v, Marshal v = Err err)).
    - discriminate.
    - discriminate.
    - intros text f Hf out err. apply Hf.
    - intros f k Hf Hk out err. specialize (Hf out).
      destruct (f out) as [out' [e|]]; cbn [Neat.orReturn snd] in *.
      + intros He. now apply Hf.
      + apply Hk.
    - intros prefix' skip' obj' out err. unfold Neat.neatScalar.
      destruct (Marshal obj') as [data|e] eqn:HM.
      + destruct obj'; discriminate.
      + destruct obj'; cbn [snd]; try discriminate;
          intros He; inversion He; subst; eexists; exact HM. }
  apply H.
Qed.

(** X13: an error that [neat] returns is an error that [yaml.Marshal]
    returned for some value. *)
Theorem neat_error_is_Marshal_error prefix skip obj out err :
  snd (neat prefix skip obj out) = Some err ->
  exists v, Marshal v = Err err.
Proof. apply neat_error_from_Marshal. Qed.

(** X18: when [ToString] returns an error it returns the empty string with
    it, whatever was written before the failure, and the error is one that
    [yaml.Marshal] returned for some value. *)
Theorem ToString_error obj text err :
  Neat.ToString Colorize Bold Marshal FormatV TrimSpace p obj = (text, Some err) ->
  text = "" /\ exists v, Marshal v = Err err.
Proof.
  unfold Neat.ToString. intros H.
  destruct (neat "" false obj "") as [data [e|]] eqn:Hneat; [|discriminate].
  inversion H; subst. split; [reflexivity|].
  apply (neat_error_from_Marshal "" false obj ""). now rewrite Hneat.
Qed.

(** ** The flag [skipIndentOnFirstLine] *)

Lemma orReturn_ext (r : Neat.Step) (k k' : Neat.Buffer -> Neat.Step) :
  (forall out, k out = k' out) -> Neat.orReturn r k = Neat.orReturn r k'.
Proof. intros H. destruct r as [out [err|]]; [reflexivity | apply H]. Qed.

Lemma neatSlice_skip prefix skip skip' l out :
  neatSlice prefix skip l out = neatSlice prefix skip' l out.
Proof.
  revert out. induction l as [|entry rest IH]; intros out; [reflexivity|].
  cbn [Neat.neatSlice]. apply orReturn_ext. apply IH.
Qed.

Lemma neatMapSliceSlice_skip prefix skip skip' l out :
  neatMapSliceSlice prefix skip l out = neatMapSliceSlice prefix skip' l out.
Proof.
  revert out. induction l as [|entry rest IH]; intros out; [reflexivity|].
  cbn [Neat.neatMapSliceSlice]. apply orReturn_ext. apply IH.
Qed.

Lemma neatMapSliceFrom_later_skip i prefix skip skip' m out :
  neatMapSliceFrom (S i) prefix skip m out = neatMapSliceFrom (S i) prefix skip' m out.
Proof.
  revert i out. induction m as [|key value rest IH]; intros i out; [reflexivity|].
  cbn [Neat.neatMapSliceFrom Nat.ltb Nat.leb]. rewrite !orb_true_r.
  apply orReturn_ext. apply IH.
Qed.

(** X14: the flag [skipIndentOnFirstLine] changes nothing for a value that
    is not a [yaml.MapSlice]: a sequence of either kind and a scalar are
    written with it as without it. *)
Theorem neat_skip_only_for_MapSlice prefix obj out :
  (forall m, obj <> Neat.VMapSlice m) ->
  neat prefix true obj out = neat prefix false obj out.
Proof.
  intros Hobj. destruct obj as [m|l|l| | | | | |]; try reflexivity.
  - now destruct (Hobj m).
  - apply neatSlice_skip.
  - apply neatMapSliceSlice_skip.
Qed.

(** X15: for a mapping with at least one item the flag
    [skipIndentOnFirstLine] holds back the prefix of the first line and
    nothing else: without the flag the mapping is written as it is with the
    flag behind a buffer that ends in the prefix. *)
Theorem neatMapSlice_skip_is_first_prefix prefix key value rest out :
  neatMapSlice prefix false (Neat.MapItem key value rest) out =
  neatMapSlice prefix true (Neat.MapItem key value rest) (out +:+ prefix).
Proof.
  unfold Neat.neatMapSlice. cbn [Neat.neatMapSliceFrom negb orb Nat.ltb Nat.leb].
  apply orReturn_ext. intros out'. apply neatMapSliceFrom_later_skip.
Qed.

(** X16: a [[]yaml.MapSlice] is written by [neatMapSliceSlice] as
    [neatSlice] writes the [[]interface{}] that holds the same mappings. *)
Theorem neatMapSliceSlice_as_neatSlice prefix skip l out :
  neatMapSliceSlice prefix skip l out = neatSlice prefix skip (Neat.asSlice l) out.
Proof.
  revert out. induction l as [|entry rest IH]; intros out; [reflexivity|].
  cbn [Neat.neatMapSliceSlice Neat.asSlice Neat.neatSlice Neat.neat].
  apply orReturn_ext. apply IH.
Qed.

(** X19: under a schema that gives the color [c] to the color name of the
    scalar's dynamic type ([boolColor] for a bool, [floatColor] for a
    float, [intColor] for an integer, [scalarDefaultColor] for the rest), a
    scalar that is not nil and whose marshalled, trimmed text is one line
    is written as that line passed to [bunt.Colorize] with [c] and a line
    feed, without the prefix. *)
Theorem neatScalar_single_line (schema : gmap string Color) (c : Color)
    prefix skip obj out data line :
  Neat.colorSchema p = Some schema ->
  schema !! match obj with
            | Neat.VBool _ => "boolColor"
            | Neat.VFloat _ => "floatColor"
            | Neat.VInt _ => "intColor"
            | _ => "scalarDefaultColor"
            end = Some c ->
  obj <> Neat.VNil ->
  Marshal obj = Ok data ->
  Neat.Split (TrimSpace data) = [line] ->
  neatScalar prefix skip obj out = (out +:+ Colorize line c +:+ nl, None).
Proof.
  intros Hs Hc Hnil HM Hline.
  rewrite (neatScalar_marshalled prefix skip obj out data Hnil HM), Hline.
  cbn [length Nat.ltb Nat.leb Neat.rangeLines]. unfold Neat.WriteString.
  rewrite (colorize_schema schema c) by assumption.
  now rewrite append_assoc.
Qed.

(** ** Without decoration *)

Lemma Split_not_nil (s : string) : Neat.Split s <> [].
Proof.
  destruct s as [|c s]; simpl; [discriminate|].
  destruct (Ascii.eqb c (ascii_of_nat 10)); [discriminate|].
  destruct (Neat.Split s); discriminate.
Qed.

Lemma Join_Split (s : string) : Neat.Join (Neat.Split s) = s.
Proof.
  induction s as [|c s IH]; [reflexivity|].
  cbn [Neat.Split]. destruct (Ascii.eqb c (ascii_of_nat 10)) eqn:Hc.
  - apply Ascii.eqb_eq in Hc. subst c.
    pose proof (Split_not_nil s) as Hne.
    destruct (Neat.Split s) as [|line lines]; [congruence|].
    change (Neat.Join ("" :: line :: lines)) with (nl +:+ Neat.Join (line :: lines)).
    rewrite IH. reflexivity.
  - pose proof (Split_not_nil s) as Hne.
    destruct (Neat.Split s) as [|line lines]; [congruence|].
    destruct lines as [|line' lines].
    + cbn [Neat.Join] in *. now rewrite IH.
    + change (Neat.Join (String c line :: line' :: lines))
        with (String c (Neat.Join (line :: line' :: lines))).
      now rewrite IH.
Qed.

Lemma colorize_no_schema text colorName :
  Neat.colorSchema p = None -> colorize text colorName = text.
Proof. intros H. unfold Neat.colorize. now rewrite H. Qed.

Lemma rangeLines_plain color i line lines out :
  Neat.colorSchema p = None ->
  rangeLines "" color i (line :: lines) out =
  out +:+ Neat.Join (line :: lines) +:+ nl.
Proof.
  intros Hp. revert i line out.
  induction lines as [|line' rest IH]; intros i line out.
  - cbn [Neat.rangeLines Neat.Join]. unfold Neat.WriteString.
    rewrite colorize_no_schema by assumption.
    destruct (Nat.ltb 0 i); rewrite ?append_empty_r; now rewrite !append_assoc.
  - change (rangeLines "" color i (line :: line' :: rest) out)
      with (rangeLines "" color (S i) (line' :: rest)
              (Neat.WriteString
                 (Neat.WriteString
                    (if Nat.ltb 0 i then Neat.WriteString out "" else out)
                    (colorize line color)) nl)).
    rewrite IH.
    change (Neat.Join (line :: line' :: rest))
      with (line +:+ nl +:+ Neat.Join (line' :: rest)).
    unfold Neat.WriteString. rewrite colorize_no_schema by assumption.
    destruct (Nat.ltb 0 i); rewrite ?append_empty_r; now rewrite !append_assoc.
Qed.

(** X17: a processor without a color schema writes a scalar that is not
    nil, at the empty prefix, as the trimmed text [yaml.Marshal] gave for it
    followed by one line feed, however many lines the text has. *)
Theorem neatScalar_plain skip obj out data :
  Neat.colorSchema p = None ->
  obj <> Neat.VNil ->
  Marshal obj = Ok data ->
  neatScalar "" skip obj out = (out +:+ TrimSpace data +:+ nl, None).
Proof.
  intros Hp Hnil HM.
  rewrite (neatScalar_marshalled "" skip obj out data Hnil HM).
  pose proof (Split_not_nil (TrimSpace data)) as Hne.
  pose proof (Join_Split (TrimSpace data)) as Hjoin.
  destruct (Neat.Split (TrimSpace data)) as [|line lines]; [congruence|].
  rewrite rangeLines_plain by assumption. now rewrite Hjoin.
Qed.

End NeatFacts.

(** * Concrete runs *)

(** ** The report filters *)

(** C1 (the code departs from it): the diff at [/b] passes its own checks
    under the predicate of [Filter("/b")] and is kept when it is alone in
    the report; behind the diff at [/a], which fails, it is dropped,
    because [includeDiff] is never set back to true. *)
Theorem filter_flag_outlives_its_diff :
  Dyff.ownChecks Sample.ListPathsInNode Sample.AppendPath
    (Dyff.filterHasPath Sample.PathString Sample.ParsePathStringUnsafe ["/b"])
    Sample.diffB = true /\
  Sample.Filter (Sample.report [Sample.diffB]) ["/b"] =
    Done (Sample.report [Sample.diffB]) /\
  Sample.Filter (Sample.report [Sample.diffA; Sample.diffB]) ["/b"] =
    Done (Sample.report []).
Proof. repeat split. Qed.

(** C2 (as stated) fails: the one diff of this report is at [/a] and its
    To value holds the key [c]; [/a] is in the path set and [/a/c] is not,
    so the diff is in the result of neither [Filter("/a")] nor
    [Exclude("/a")], and the two results do not rebuild the report. *)
Lemma Filter_Exclude_not_complementary :
  Sample.ParsePathStringUnsafe "/a" = Ok ["a"] /\
  Sample.Filter (Sample.report [Sample.diffNested]) ["/a"] =
    Done (Sample.report []) /\
  Sample.Exclude (Sample.report [Sample.diffNested]) ["/a"] =
    Done (Sample.report []) /\
  ~ Dyff.Complementary [Sample.diffNested] [] [].
Proof.
  repeat split. intros [_ H]. inversion H.
Qed.

(** [Filter("/a")] and [Exclude("/a")] on the report of the diffs at [/a]
    and [/b]. *)
Lemma Filter_Exclude_disjoint_witness :
  (forall d, In d [Sample.diffA] -> In d [] -> False) /\
  sublist [Sample.diffA] [Sample.diffA; Sample.diffB] /\
  sublist [] [Sample.diffA; Sample.diffB] /\
  (forall fp,
     Dyff.excludeHasPath Sample.PathString Sample.ParsePathStringUnsafe ["/a"] fp =
     negb (Dyff.filterHasPath Sample.PathString Sample.ParsePathStringUnsafe ["/a"] fp)).
Proof.
  apply (Filter_Exclude_disjoint Sample.PathString Sample.ParsePathStringUnsafe
           Sample.ListPathsInNode Sample.AppendPath
           (Sample.report [Sample.diffA; Sample.diffB]) ["/a"]
           (Sample.report [Sample.diffA]) (Sample.report [])).
  - discriminate.
  - reflexivity.
  - reflexivity.
Defined.

(** The string [a.b] has no leading slash and does not parse. *)
Lemma malformed_path_is_dropped_witness :
  (forall fp,
     Dyff.filterHasPath Sample.PathString Sample.ParsePathStringUnsafe
       (["/a"] ++ "a.b" :: ["/b"]) fp =
     Dyff.filterHasPath Sample.PathString Sample.ParsePathStringUnsafe
       (["/a"] ++ ["/b"]) fp /\
     Dyff.excludeHasPath Sample.PathString Sample.ParsePathStringUnsafe
       (["/a"] ++ "a.b" :: ["/b"]) fp =
     Dyff.excludeHasPath Sample.PathString Sample.ParsePathStringUnsafe
       (["/a"] ++ ["/b"]) fp) /\
  (forall r : Sample.Report,
     Sample.Filter r (["/a"] ++ "a.b" :: ["/b"]) =
     Sample.filter r
       (Dyff.filterHasPath Sample.PathString Sample.ParsePathStringUnsafe
          (["/a"] ++ ["/b"])) /\
     Sample.Exclude r (["/a"] ++ "a.b" :: ["/b"]) =
     Sample.filter r
       (Dyff.excludeHasPath Sample.PathString Sample.ParsePathStringUnsafe
          (["/a"] ++ ["/b"]))).
Proof.
  apply (malformed_path_is_dropped Sample.PathString Sample.ParsePathStringUnsafe
           Sample.ListPathsInNode Sample.AppendPath
           ["/a"] "a.b" ["/b"] "invalid path string a.b").
  reflexivity.
Defined.

(** The second pattern has an opening parenthesis and does not compile. *)
Lemma invalid_regexp_fails_call_witness :
  exists p, In p ["/a"; "(b"] /\ Sample.Compile p = None /\
    forall r : Sample.Report,
      Sample.FilterRegexp r ["/a"; "(b"] = Panic (RegexpMustCompile p) /\
      Sample.ExcludeRegexp r ["/a"; "(b"] = Panic (RegexpMustCompile p).
Proof.
  apply (invalid_regexp_fails_call Sample.PathString Sample.ListPathsInNode
           Sample.AppendPath Sample.Compile Sample.MatchString ["/a"; "(b"]).
  exists "(b". split; [right; now left | reflexivity].
Defined.

(** A report whose second diff has no path and a From value with the key
    [c]. *)
Lemma filter_nil_path_faults_witness :
  Sample.filter (Sample.report [Sample.diffA; Sample.diffNoPath]) (fun _ => true) =
  Panic NilDereference.
Proof.
  apply (filter_nil_path_faults Sample.ListPathsInNode Sample.AppendPath
           (Sample.report [Sample.diffA; Sample.diffNoPath]) (fun _ => true)
           Sample.diffNoPath
           (Dyff.mkDetail Dyff.REMOVAL (Some Sample.keyC) None)
           Sample.keyC ["c"] []).
  - right; now left.
  - reflexivity.
  - now left.
  - now left.
  - reflexivity.
Defined.

(** The diffs at [/b], [/a], [/b] under [Filter("/b")]: the first is kept,
    the second fails, the third comes too late. *)
Lemma filter_keeps_leading_run_witness :
  Sample.Filter (Sample.report [Sample.diffB; Sample.diffA; Sample.diffB]) ["/b"] =
  Done (Sample.report [Sample.diffB]).
Proof.
  apply (filter_keeps_leading_run Sample.ListPathsInNode Sample.AppendPath
           (Sample.report [Sample.diffB; Sample.diffA; Sample.diffB])
           (Dyff.filterHasPath Sample.PathString Sample.ParsePathStringUnsafe ["/b"])).
  intros d [<-|[<-|[<-|[]]]]; discriminate.
Defined.

(** [Exclude("/a/c")] keeps the diff at [/b] and drops the diff at [/a]
    whose value holds the key [c]. *)
Lemma filter_result_passes_checks_witness :
  In Sample.diffB [Sample.diffB; Sample.diffNested] /\
  Dyff.ownChecks Sample.ListPathsInNode Sample.AppendPath
    (Dyff.excludeHasPath Sample.PathString Sample.ParsePathStringUnsafe ["/a/c"])
    Sample.diffB = true.
Proof.
  apply (filter_result_passes_checks Sample.ListPathsInNode Sample.AppendPath
           (Sample.report [Sample.diffB; Sample.diffNested])
           (Dyff.excludeHasPath Sample.PathString Sample.ParsePathStringUnsafe ["/a/c"])
           (Sample.report [Sample.diffB]) Sample.diffB).
  - reflexivity.
  - now left.
Defined.

(** [Filter("/b")] on its own result for the diffs at [/b] and [/a]. *)
Lemma filter_idempotent_witness :
  Sample.filter (Sample.report [Sample.diffB])
    (Dyff.filterHasPath Sample.PathString Sample.ParsePathStringUnsafe ["/b"]) =
  Done (Sample.report [Sample.diffB]).
Proof.
  apply (filter_idempotent Sample.ListPathsInNode Sample.AppendPath
           (Sample.report [Sample.diffB; Sample.diffA])).
  reflexivity.
Defined.

(** [Exclude("/a/c")], then [Filter("/b")] on its result. *)
Lemma filter_twice_witness :
  Sample.filter (Sample.report [Sample.diffB])
    (Dyff.filterHasPath Sample.PathString Sample.ParsePathStringUnsafe ["/b"]) =
  Sample.filter (Sample.report [Sample.diffB; Sample.diffNested; Sample.diffB])
    (fun fp =>
       Dyff.excludeHasPath Sample.PathString Sample.ParsePathStringUnsafe ["/a/c"] fp &&
       Dyff.filterHasPath Sample.PathString Sample.ParsePathStringUnsafe ["/b"] fp).
Proof.
  apply (filter_twice Sample.ListPathsInNode Sample.AppendPath
           (Sample.report [Sample.diffB; Sample.diffNested; Sample.diffB])
           (Dyff.excludeHasPath Sample.PathString Sample.ParsePathStringUnsafe ["/a/c"])).
  reflexivity.
Defined.

(** The diff at [/b] kept by [Filter("/b")]. *)
Lemma Filter_keeps_listed_paths_witness :
  exists p,
    Dyff.DPath Sample.diffB = Some p /\
    forall q,
      q = p \/ (exists subPath,
                  In subPath (Dyff.diffSubPaths Sample.ListPathsInNode Sample.diffB) /\
                  q = Sample.AppendPath p subPath) ->
      exists s path,
        In s ["/b"] /\ Sample.ParsePathStringUnsafe s = Ok path /\
        Sample.PathString path = Sample.PathString q.
Proof.
  apply (Filter_keeps_listed_paths Sample.PathString Sample.ParsePathStringUnsafe
           Sample.ListPathsInNode Sample.AppendPath
           (Sample.report [Sample.diffB; Sample.diffA]) ["/b"]
           (Sample.report [Sample.diffB]) Sample.diffB).
  - discriminate.
  - reflexivity.
  - now left.
Defined.

(** The diff at [/b] kept by [Exclude("/a")]. *)
Lemma Exclude_drops_listed_paths_witness :
  Sample.Exclude (Sample.report [Sample.diffB; Sample.diffA]) ["/a"] =
    Done (Sample.report [Sample.diffB]) /\
  Sample.PathString ["a"] <> Sample.PathString ["b"].
Proof.
  split; [reflexivity|].
  apply (Exclude_drops_listed_paths Sample.PathString Sample.ParsePathStringUnsafe
           Sample.ListPathsInNode Sample.AppendPath
           (Sample.report [Sample.diffB; Sample.diffA]) ["/a"]
           (Sample.report [Sample.diffB]) Sample.diffB ["b"] ["b"] "/a" ["a"]).
  - discriminate.
  - reflexivity.
  - now left.
  - reflexivity.
  - now left.
  - now left.
  - reflexivity.
Defined.

(** Two strings without a leading slash. *)
Lemma only_malformed_paths_witness :
  Sample.Filter (Sample.report [Sample.diffA; Sample.diffB]) ["a.b"; "c"] =
    Done (Sample.report []) /\
  Sample.Exclude (Sample.report [Sample.diffA; Sample.diffB]) ["a.b"; "c"] =
    Done (Sample.report [Sample.diffA; Sample.diffB]).
Proof.
  apply (only_malformed_paths Sample.PathString Sample.ParsePathStringUnsafe
           Sample.ListPathsInNode Sample.AppendPath
           (Sample.report [Sample.diffA; Sample.diffB]) ["a.b"; "c"]).
  - discriminate.
  - intros s [<-|[<-|[]]]; eexists; reflexivity.
  - intros d [<-|[<-|[]]]; discriminate.
Defined.

(** The diff at [/b] kept by [FilterRegexp("/b")]. *)
Lemma FilterRegexp_keeps_matching_witness :
  exists p pat re,
    Dyff.DPath Sample.diffB = Some p /\ In pat ["/b"] /\
    Sample.Compile pat = Some re /\
    Sample.MatchString re (Sample.PathString p) = true.
Proof.
  apply (FilterRegexp_keeps_matching Sample.PathString Sample.ListPathsInNode
           Sample.AppendPath Sample.Compile Sample.MatchString
           (Sample.report [Sample.diffB; Sample.diffA]) ["/b"]
           (Sample.report [Sample.diffB]) Sample.diffB).
  - discriminate.
  - reflexivity.
  - now left.
Defined.

(** The diff at [/b] kept by [ExcludeRegexp("/a")]. *)
Lemma ExcludeRegexp_drops_matching_witness :
  Sample.MatchString "/a" (Sample.PathString ["b"]) = false.
Proof.
  apply (ExcludeRegexp_drops_matching Sample.PathString Sample.ListPathsInNode
           Sample.AppendPath Sample.Compile Sample.MatchString
           (Sample.report [Sample.diffB; Sample.diffA]) ["/a"]
           (Sample.report [Sample.diffB]) Sample.diffB ["b"] "/a" "/a").
  - discriminate.
  - reflexivity.
  - now left.
  - reflexivity.
  - now left.
  - reflexivity.
Defined.

(** ** The output processor *)

(** C8 (the code departs from it): under the key [k], the one-item
    sequence of the mapping [a: 1] held as [[]interface{}] is written on
    the lines after the key, as [neat] writes the same sequence held as
    [[]yaml.MapSlice]; held as [[]yaml.MapSlice] under the key it is sent
    to [neatScalar] and written behind the key on its line. *)
Theorem neatMapSlice_misses_MapSliceSlice :
  Sample.neatMapSlice Sample.plain "" false
    (Neat.MapItem (Neat.VString "k")
       (Neat.VSlice (Neat.slice
          [Neat.VMapSlice (Neat.mapSlice [(Neat.VString "a", Neat.VInt 1)])]))
       Neat.MapNil) "" =
    ("k:" +:+ nl +:+ "*- *a: 1" +:+ nl, None) /\
  Sample.neatMapSliceSlice Sample.plain "" false
    (Neat.mapSlices [Neat.mapSlice [(Neat.VString "a", Neat.VInt 1)]]) "" =
    ("*- *a: 1" +:+ nl, None) /\
  Sample.neatMapSlice Sample.plain "" false
    (Neat.MapItem (Neat.VString "k")
       (Neat.VMapSliceSlice
          (Neat.mapSlices [Neat.mapSlice [(Neat.VString "a", Neat.VInt 1)]]))
       Neat.MapNil) "" =
    ("k: - a: 1" +:+ nl, None).
Proof. repeat split. Qed.


(** A float, which the marshaller at hand refuses, in a sequence. *)
Lemma neat_error_is_Marshal_error_witness :
  exists v, Sample.Marshal v = Err "cannot marshal".
Proof.
  apply (neat_error_is_Marshal_error Sample.Colorize Sample.Bold Sample.Marshal
           Sample.FormatV Sample.TrimSpace Sample.plain "" false
           (Neat.VSlice (Neat.slice [Neat.VInt 1; Neat.VFloat 0])) "").
  reflexivity.
Defined.

(** The same float under a key: the key is written, then the call fails. *)
Lemma ToString_error_witness :
  EmptyString = EmptyString /\ exists v, Sample.Marshal v = Err "cannot marshal".
Proof.
  apply (ToString_error Sample.Colorize Sample.Bold Sample.Marshal
           Sample.FormatV Sample.TrimSpace Sample.plain
           (Neat.VMapSlice (Neat.mapSlice [(Neat.VString "k", Neat.VFloat 0)]))
           EmptyString "cannot marshal").
  reflexivity.
Defined.

(** A one-item sequence directly behind a dash. *)
Lemma neat_skip_only_for_MapSlice_witness :
  Neat.neat Sample.Colorize Sample.Bold Sample.Marshal Sample.FormatV Sample.TrimSpace
    Sample.plain "  " true (Neat.VSlice (Neat.slice [Neat.VInt 1])) "- " =
  Neat.neat Sample.Colorize Sample.Bold Sample.Marshal Sample.FormatV Sample.TrimSpace
    Sample.plain "  " false (Neat.VSlice (Neat.slice [Neat.VInt 1])) "- ".
Proof.
  apply (neat_skip_only_for_MapSlice Sample.Colorize Sample.Bold Sample.Marshal
           Sample.FormatV Sample.TrimSpace Sample.plain "  "
           (Neat.VSlice (Neat.slice [Neat.VInt 1])) "- ").
  discriminate.
Defined.

(** The string of the two lines [a] and [b] without colors. *)
Lemma neatScalar_plain_witness :
  Sample.neatScalar Sample.plain "" false (Neat.VString ("a" +:+ nl +:+ "b")) "k: " =
  ("k: " +:+ Sample.TrimSpace ("|-" +:+ nl +:+ "  a" +:+ nl +:+ "  b" +:+ nl) +:+ nl,
   None).
Proof.
  apply (neatScalar_plain Sample.Colorize Sample.Marshal Sample.TrimSpace
           Sample.plain false (Neat.VString ("a" +:+ nl +:+ "b")) "k: "
           ("|-" +:+ nl +:+ "  a" +:+ nl +:+ "  b" +:+ nl)).
  - reflexivity.
  - discriminate.
  - reflexivity.
Defined.

(** The integer 42 under a schema with the color purple for integers. *)
Lemma neatScalar_single_line_witness :
  Sample.neatScalar Sample.typeColors "| " false (Neat.VInt 42) "k: " =
  ("k: [purple]42" +:+ nl, None).
Proof.
  apply (neatScalar_single_line Sample.Colorize Sample.Marshal Sample.TrimSpace
           Sample.typeColors
           (<["boolColor" := "moccasin"]>
              (<["floatColor" := "orange"]>
                 (<["intColor" := "purple"]>
                    (<["scalarDefaultColor" := "green"]> (∅ : gmap string Sample.Color)))))
           "purple" "| " false (Neat.VInt 42) "k: " ("42" +:+ nl) "42").
  - reflexivity.
  - reflexivity.
  - discriminate.
  - reflexivity.
  - reflexivity.
Defined.
